(** * byexample: session engine, concern composite and run orchestration

    A shallow embedding of [byexample/interpreter.py], [byexample/concern.py]
    and [byexample/byexample.py].

    Python strings are [string]s, Python lists are [list]s, dictionaries are
    association lists in iteration order, sets of strings are [gset string].
    A call that may raise returns a value of [result]; a method of an object
    with mutable fields takes the object and returns the updated object. *)

From Stdlib Require Import Ascii String QArith.
From stdpp Require Import base strings list gmap sets.
From Equations Require Import Equations.

Local Open Scope string_scope.

(** ** Python strings *)

Module Str.

Definition CR : ascii := ascii_of_nat 13.
Definition LF : ascii := ascii_of_nat 10.
Definition nl : string := String LF "".
Definition crlf : string := String CR (String LF "").

(** [''.join(chunks)] *)
Fixpoint join (chunks : list string) : string :=
  match chunks with
  | [] => ""
  | c :: cs => c +:+ join cs
  end.

(** [s.endswith(c)] for a one-character [c] *)
Fixpoint endswith_char (s : string) (c : ascii) : bool :=
  match s with
  | "" => false
  | String a "" => bool_decide (a = c)
  | String _ s' => endswith_char s' c
  end.

(** truth value of a string: non-empty *)
Definition truthy (s : string) : bool :=
  match s with "" => false | _ => true end.

(** [s[n:]] for [0 <= n] *)
Fixpoint drop (n : nat) (s : string) : string :=
  match n, s with
  | O, _ => s
  | S _, "" => ""
  | S n', String _ s' => drop n' s'
  end.

(** [s[-n:]] for [0 < n]: the whole string when it has at most [n]
    characters, its last [n] characters otherwise *)
Definition last_n (n : nat) (s : string) : string :=
  drop (String.length s - n) s.

(** [re.sub(r'\r\n', r'\n', s)]: the pattern is the two-character literal,
    so the leftmost non-overlapping matches are found by one scan from the
    left, each replaced by a line feed *)
Fixpoint sub_crlf (s : string) : string :=
  match s with
  | "" => ""
  | String a s' =>
      match s' with
      | String b s'' =>
          if bool_decide (a = CR) && bool_decide (b = LF)
          then String LF (sub_crlf s'')
          else String a (sub_crlf s')
      | "" => String a ""
      end
  end.

(** [sub in s] as a predicate: [s] contains [sub] *)
Definition contains (sub s : string) : Prop :=
  exists p q, s = p +:+ sub +:+ q.

End Str.

(** ** Results of calls that may raise *)

Inductive exn : Type :=
| TimeoutException (msg : string)   (* runner.TimeoutException *)
| EOF                               (* pexpect.EOF *)
| KeyError (key : string)
| ValueError (msg : string)
| OtherError (what : string).       (* any other Python exception *)

Inductive result (A : Type) : Type :=
| Ok (a : A)
| Raise (e : exn).
Arguments Ok {A} a.
Arguments Raise {A} e.

(** ** The child process behind [pexpect.spawn]

    [pexpect] is not part of the repository. The child is modelled by what
    it will still write to the pseudo-terminal: a list of events, each with
    the time (in seconds) that passes between the arrival of the previous
    event and its own arrival. The text the child writes is cut at the
    matches of the primary prompt pattern [PS1_re]: [Data s] is a piece of
    text free of prompt, [Prompt] one match of [PS1_re], [Closed] the end of
    file that a dead child leaves. *)

Module Pexpect.

Inductive event : Type :=
| Data (s : string)
| Prompt
| Closed.

(** the list [termios.tcgetattr] returns:
    [iflag, oflag, cflag, lflag, ispeed, ospeed, cc] *)
Record termios_attr : Type := mk_attr {
  iflag : Z;
  oflag : Z;
  cflag : Z;
  lflag : Z;
  ispeed : Z;
  ospeed : Z;
  cc : list Z;
}.

Record spawn : Type := mk_spawn {
  stream : list (Q * event);   (* unread output, with arrival delays *)
  before : string;             (* [spawn.before] *)
  sent : list string;          (* what was written to the child so far *)
  tty : termios_attr;          (* attributes of the terminal [child_fd] *)
  shown : list string;         (* what [interact] copied to the user *)
}.

(** index returned by [expect([PS1_re, pexpect.TIMEOUT], ...)] *)
Definition PS1_found : nat := 0.
Definition Timeout : nat := 1.

(** One [expect] call with [budget] seconds left and [seen] the text read
    so far in this call.  A prompt that arrives in time ends the call with
    index [PS1_found]: the text before it goes to [before], the rest stays
    unread.  Running out of time ends it with index [Timeout]: [before] is
    all the text read, which stays in the buffer (delay 0) for the next call.
    An end of file raises [pexpect.EOF], which is not among the patterns. *)
Fixpoint expect_scan (budget : Q) (seen : string) (evs : list (Q * event))
  : result nat * list (Q * event) * string :=
  match evs with
  | [] => (Ok Timeout, [(0%Q, Data seen)], seen)
  | (d, e) :: evs' =>
      if Qle_bool d budget then
        match e with
        | Data s => expect_scan (budget - d)%Q (seen +:+ s) evs'
        | Prompt => (Ok PS1_found, evs', seen)
        | Closed => (Raise EOF, (0%Q, Data seen) :: (0%Q, Closed) :: evs', seen)
        end
      else (Ok Timeout, (0%Q, Data seen) :: ((d - budget)%Q, e) :: evs', seen)
  end.

(** [spawn.expect([PS1_re, pexpect.TIMEOUT], timeout=timeout)] *)
Definition expect (timeout : Q) (c : spawn) : result nat * spawn :=
  let '(r, evs, b) := expect_scan timeout "" (stream c) in
  (r, {| stream := evs; before := b; sent := sent c;
         tty := tty c; shown := shown c |}).

(** [spawn.send(text)] *)
Definition send (text : string) (c : spawn) : spawn :=
  {| stream := stream c; before := before c; sent := sent c ++ [text];
     tty := tty c; shown := shown c |}.

(** [termios.tcgetattr(spawn.child_fd)] and
    [termios.tcsetattr(spawn.child_fd, termios.TCSANOW, attr)]; the
    descriptor stays open as long as the [spawn] object is in use *)
Definition tcgetattr (c : spawn) : termios_attr := tty c.

Definition tcsetattr (attr : termios_attr) (c : spawn) : spawn :=
  {| stream := stream c; before := before c; sent := sent c;
     tty := attr; shown := shown c |}.

Definition show (text : string) (c : spawn) : spawn :=
  {| stream := stream c; before := before c; sent := sent c;
     tty := tty c; shown := shown c ++ [text] |}.

(** What happens while [spawn.interact] copies bytes between the user's
    terminal and the child. *)
Inductive action : Type :=
| Typed (s : string)                (* the user typed [s] *)
| Printed (s : string)              (* the child wrote [s] *)
| ChildSetsAttr (a : termios_attr)  (* the child changed its terminal *)
| Fault (e : exn).                  (* an exception in the copy loop *)

(** [data[:data.rfind(esc)]] when [esc] occurs in [data] *)
Fixpoint rfind_cut (esc : ascii) (data : string) : option string :=
  match data with
  | "" => None
  | String a data' =>
      match rfind_cut esc data' with
      | Some p => Some (String a p)
      | None => if bool_decide (a = esc) then Some "" else None
      end
  end.

(** [spawn.interact(escape_character, input_filter, output_filter)]: typed
    text goes through [input_filter] to the child, and the escape character
    ends the session; printed text goes through [output_filter] to the user;
    the session also ends when the child has nothing more to say (the end
    of the script).  An exception of a filter or of the loop propagates. *)
Fixpoint interact (escape_character : ascii)
    (input_filter : string -> spawn -> result string * spawn)
    (output_filter : option (string -> result string))
    (script : list action) (c : spawn) : result unit * spawn :=
  match script with
  | [] => (Ok tt, c)
  | Typed s :: script' =>
      match input_filter s c with
      | (Raise e, c') => (Raise e, c')
      | (Ok data, c') =>
          match rfind_cut escape_character data with
          | Some data' =>
              (Ok tt, if Str.truthy data' then send data' c' else c')
          | None =>
              interact escape_character input_filter output_filter script'
                (send data c')
          end
      end
  | Printed s :: script' =>
      match output_filter with
      | None =>
          interact escape_character input_filter output_filter script'
            (show s c)
      | Some f =>
          match f s with
          | Raise e => (Raise e, c)
          | Ok data =>
              interact escape_character input_filter output_filter script'
                (show data c)
          end
      end
  | ChildSetsAttr a :: script' =>
      interact escape_character input_filter output_filter script'
        (tcsetattr a c)
  | Fault e :: _ => (Raise e, c)
  end.

(** number of prompts the child has still to show *)
Fixpoint prompts (evs : list (Q * event)) : nat :=
  match evs with
  | [] => 0
  | (_, Prompt) :: evs' => S (prompts evs')
  | _ :: evs' => prompts evs'
  end.

End Pexpect.

(** ** interpreter.py: [PexepctMixin] *)

Module Mixin.
Import Pexpect.

(** the constants of the [termios] module that [set_cooked_mode] names *)
Record termios_flags : Type := mk_flags {
  BRKINT : Z; IGNPAR : Z; ISTRIP : Z; ICRNL : Z; IXON : Z;
  OPOST : Z;
  ECHO : Z; ISIG : Z; ICANON : Z;
}.

(** [reduce(f, l)] without initial value; [l] is never empty here *)
Definition reduce (f : Z -> Z -> Z) (l : list Z) : Z :=
  match l with
  | [] => 0%Z
  | x :: l' => fold_left f l' x
  end.

Definition inspect {A : Type} (a : A) : {b : A | a = b} := exist _ a eq_refl.

Section PexepctMixin.

(** a compiled regular expression, and [re.sub(pattern, '', s)] *)
Variable Pattern : Type.
Variable re_sub_empty : Pattern -> string -> string.
Variable termios : termios_flags.

Record PexepctMixin : Type := mk_mixin {
  cmd : string;
  PS1_re : Pattern;
  any_PS_re : option Pattern;    (* [None]: not configured (falsy) *)
  last_output : list string;
  interpreter : spawn;
}.

Definition set_interpreter (c : spawn) (self : PexepctMixin) : PexepctMixin :=
  {| cmd := cmd self; PS1_re := PS1_re self; any_PS_re := any_PS_re self;
     last_output := last_output self; interpreter := c |}.

Definition set_last_output (l : list string) (self : PexepctMixin)
  : PexepctMixin :=
  {| cmd := cmd self; PS1_re := PS1_re self; any_PS_re := any_PS_re self;
     last_output := l; interpreter := interpreter self |}.

(** [self.last_output.append(self.interpreter.before)] *)
Definition append_before (self : PexepctMixin) : PexepctMixin :=
  set_last_output (last_output self ++ [before (interpreter self)]) self.

Definition _drop_output (self : PexepctMixin) : PexepctMixin :=
  set_last_output [] self.

Definition _universal_new_lines (out : string) : string :=
  let out := Str.sub_crlf out in
  if Str.truthy out && negb (Str.endswith_char out Str.LF)
  then out +:+ Str.nl
  else out.

Definition _get_output (self : PexepctMixin) : string * PexepctMixin :=
  let out := Str.join (last_output self) in
  let self := _drop_output self in
  let out :=
    match any_PS_re self with
    | Some re => re_sub_empty re out
    | None => out
    end in
  let out := _universal_new_lines out in
  (out, self).

Definition stall_message (seen : string) : string :=
  "Prompt not found: the code is taking too long to finish or there is a syntax error."
  +:+ Str.nl +:+ "Last 1000 bytes read:" +:+ Str.nl +:+ Str.last_n 1000 seen.

(** the settle window of the [while] loop, 0.05 seconds *)
Definition settle_window : Q := 5 # 100.

(** what bounds the number of further iterations of the settle loop *)
Definition settle_measure (what : nat) (self : PexepctMixin) : nat :=
  prompts (stream (interpreter self)) + (if decide (what = Timeout) then 0 else 1).

(** the loop of [_expect_prompt]:
    [while what != Timeout:
         what = self.interpreter.expect(expect, timeout=0.05)
         self.last_output.append(self.interpreter.before)] *)
Equations? while_settle (what : nat) (self : PexepctMixin)
  : result unit * PexepctMixin by wf (settle_measure what self) lt :=
while_settle what self with decide (what = Timeout) := {
  | left _ => (Ok tt, self)
  | right Hne with inspect (expect settle_window (interpreter self)) := {
      | exist _ (Raise e, c) _ => (Raise e, set_interpreter c self)
      | exist _ (Ok what', c) Heq =>
          while_settle what' (append_before (set_interpreter c self)) } }.
Proof.
  unfold settle_measure; simpl.
  destruct (decide (what = Timeout)) as [|_]; [done|].
  revert Heq. unfold expect.
  generalize (stream (interpreter self)) as evs.
  generalize settle_window as budget. generalize "" as seen.
  intros seen budget evs; revert seen budget.
  induction evs as [|[d ev] evs IH]; intros seen budget; simpl.
  - intros [= <- <-]; simpl; lia.
  - destruct (Qle_bool d budget).
    + destruct ev; simpl.
      * intros H. specialize (IH _ _ H). lia.
      * intros [= <- <-]; simpl; lia.
      * intros [=].
    + intros [= <- <-]; destruct ev; simpl; lia.
Qed.

Definition _expect_prompt (timeout : Q) (self : PexepctMixin)
  : result unit * PexepctMixin :=
  match expect timeout (interpreter self) with
  | (Raise e, c) => (Raise e, set_interpreter c self)
  | (Ok what, c) =>
      let self := append_before (set_interpreter c self) in
      if decide (what = PS1_found) then while_settle what self
      else if decide (what = Timeout) then
        (Raise (TimeoutException (stall_message (before (interpreter self)))),
         self)
      else (Ok tt, self)
  end.

Definition _exec_and_wait (source : string) (timeout : Q)
    (self : PexepctMixin) : result string * PexepctMixin :=
  let self := set_interpreter (send source (interpreter self)) self in
  match _expect_prompt timeout self with
  | (Raise e, self) => (Raise e, self)
  | (Ok _, self) => let '(out, self) := _get_output self in (Ok out, self)
  end.


Definition input_flags : list Z :=
  [BRKINT termios; IGNPAR termios; ISTRIP termios; ICRNL termios;
   IXON termios].
Definition output_flags : list Z := [OPOST termios].
Definition local_flags : list Z :=
  [ECHO termios; ISIG termios; ICANON termios].

Definition set_cooked_mode (state : bool) (self : PexepctMixin)
  : PexepctMixin :=
  let attr := tcgetattr (interpreter self) in
  let attr :=
    if state then
      {| iflag := Z.lor (iflag attr) (reduce Z.lor input_flags);
         oflag := Z.lor (oflag attr) (reduce Z.lor output_flags);
         cflag := cflag attr;
         lflag := Z.lor (lflag attr) (reduce Z.lor local_flags);
         ispeed := ispeed attr; ospeed := ospeed attr; cc := cc attr |}
    else
      {| iflag := Z.land (iflag attr)
                    (reduce Z.land (map Z.lnot input_flags));
         oflag := Z.land (oflag attr)
                    (reduce Z.land (map Z.lnot output_flags));
         cflag := cflag attr;
         lflag := Z.land (lflag attr)
                    (reduce Z.land (map Z.lnot local_flags));
         ispeed := ispeed attr; ospeed := ospeed attr; cc := cc attr |} in
  set_interpreter (tcsetattr attr (interpreter self)) self.

(** the closure [ensure_cooked_mode] of [interact], as the input filter of
    the child *)
Definition ensure_cooked_mode (input_filter : option (string -> result string))
    (self : PexepctMixin) (input_str : string) (c : spawn)
  : result string * spawn :=
  let c := interpreter (set_cooked_mode true (set_interpreter c self)) in
  match input_filter with
  | Some f => (f input_str, c)
  | None => (Ok input_str, c)
  end.

(** [interact]: [script] is what the user and the child do during the
    session; the [finally] clause runs on both ways out of the [try] *)
Definition interact (send' : string) (escape_character : ascii)
    (input_filter output_filter : option (string -> result string))
    (script : list action) (self : PexepctMixin)
  : result unit * PexepctMixin :=
  let attr := tcgetattr (interpreter self) in
  let c := interpreter self in
  let c := if Str.truthy send' then send send' c else c in
  let '(r, c) :=
    Pexpect.interact escape_character (ensure_cooked_mode input_filter self)
      output_filter script c in
  (r, set_interpreter (tcsetattr attr c) self).

End PexepctMixin.

End Mixin.

(** ** Python dictionaries with string keys

    An association list without repeated keys, in the order in which the
    dictionary is iterated: setting a key that is present replaces its value
    in place, a new key goes to the end (the insertion order of Python 3.7
    and later; earlier versions leave the place of a new key open, and
    nothing below depends on it); [values] lists the values in that
    order. *)

Module Dict.

Definition dict (V : Type) : Type := list (string * V).

Fixpoint get {V : Type} (k : string) (d : dict V) : option V :=
  match d with
  | [] => None
  | (k', v) :: d' => if decide (k = k') then Some v else get k d'
  end.

(** [d[k] = v] *)
Fixpoint set {V : Type} (k : string) (v : V) (d : dict V) : dict V :=
  match d with
  | [] => [(k, v)]
  | (k', v') :: d' =>
      if decide (k = k') then (k, v) :: d' else (k', v') :: set k v d'
  end.

Definition keys {V : Type} (d : dict V) : list string := map fst d.
Definition values {V : Type} (d : dict V) : list V := map snd d.

(** [d[k]], which raises [KeyError] for a missing key *)
Definition item {V : Type} (k : string) (d : dict V) : result V :=
  match get k d with
  | Some v => Ok v
  | None => Raise (KeyError k)
  end.

End Dict.

(** ** concern.py *)

Module Concern.
Import Dict.

(** [s.startswith(c)] for a one-character [c] *)
Definition startswith_char (s : string) (c : ascii) : bool :=
  match s with
  | String a _ => bool_decide (a = c)
  | "" => false
  end.

(** what [inspect.getmembers(Concern, predicate=inspect.ismethod)] names:
    the methods the class [Concern] defines, sorted by name (under
    Python 2, where the functions of a class are its unbound methods) *)
Definition Concern_methods : list string :=
  ["__repr__"; "crashed"; "end_run"; "failure"; "finish_interact";
   "skip_example"; "start_example"; "start_interact"; "start_run";
   "success"; "user_aborted"].


(** the names the loop at the end of the file patches *)
Definition patched : list string :=
  filter (fun method_name => negb (startswith_char method_name "_"))
    Concern_methods.

Section Concern.

(** the state the hooks can read and change (examples, interpreters,
    reports), the arguments of a call and the values hooks return *)
Variable World : Type.
Variable Args : Type.
Variable Value : Type.

(** A concern: for each method name, the method a subclass overrides, if
    any.  A method that is not overridden is the one of [Concern], whose
    body is [pass]. *)
Record Concern : Type := mk_concern {
  target : string;
  overrides : string -> option (Args -> World -> result Value * World);
}.

(** the value [None] a method returns that ends without [return] *)
Variable none : Value.

(** [getattr(concern, method_name)] applied to the arguments of the call *)
Definition call (concern : Concern) (method_name : string) (args : Args)
    (w : World) : result Value * World :=
  match overrides concern method_name with
  | Some method => method args w
  | None => (Ok none, w)
  end.

Record ConcernComposite : Type := mk_composite {
  concerns : list Concern;
}.

(** [ConcernComposite.__init__] *)
Definition init (registry : dict (dict Concern)) : result ConcernComposite :=
  match item "concerns" registry with
  | Ok d => Ok {| concerns := values d |}
  | Raise e => Raise e
  end.

(** one call a composite made: the concern, the method and the arguments *)
Definition invocation : Type := (Concern * string * Args)%type.

(** the body of [for_each_concern_do], over the concerns still to call;
    next to the outcome and the state it gives the calls it made *)
Fixpoint for_each (cs : list Concern) (method_name : string) (args : Args)
    (w : World) : result Value * World * list invocation :=
  match cs with
  | [] => (Ok none, w, [])
  | concern :: cs' =>
      match call concern method_name args w with
      | (Raise e, w') => (Raise e, w', [(concern, method_name, args)])
      | (Ok _, w') =>
          let '(r, w'', made) := for_each cs' method_name args w' in
          (r, w'', (concern, method_name, args) :: made)
      end
  end.

Definition for_each_concern_do (method_name : string)
    (self : ConcernComposite) (args : Args) (w : World)
  : result Value * World * list invocation :=
  for_each (concerns self) method_name args w.

(** a method call on a composite: a patched name runs
    [for_each_concern_do]; any other public name is not an attribute *)
Definition composite_call (self : ConcernComposite) (method_name : string)
    (args : Args) (w : World) : result Value * World * list invocation :=
  if bool_decide (method_name ∈ patched)
  then for_each_concern_do method_name self args w
  else (Raise (OtherError "AttributeError"), w, []).

End Concern.

End Concern.

(** ** byexample.py *)

Module Byexample.
Import Dict.

(** sequencing of calls that may raise: [x ← r; k] *)
#[global] Instance result_bind : MBind result :=
  fun A B (k : A -> result B) (r : result A) =>
    match r with
    | Ok a => k a
    | Raise e => Raise e
    end.

(** the base classes of the three kinds of plugin *)
Inductive Base : Type := Interpreter | ExampleParser | MatchFinder.

(** A class object.  Two class objects are the same object when they are
    equal; [klass_id] tells apart classes that look the same.  [bases] are
    the plugin base classes the class inherits from; [language] and
    [target] are its class attributes of these names, if it has them. *)
Inductive KlassId : Type := BaseKlass (b : Base) | UserKlass (n : nat).

Record Klass : Type := mk_klass {
  klass_id : KlassId;
  klass_name : string;
  bases : list Base;
  language : option string;
  target : option string;
}.

(** An instance [klass(verbosity, encoding)]; [serial] is its place among
    the objects created, which tells apart two instances of one class. *)
Record Instance : Type := mk_instance {
  class_of : Klass;
  serial : nat;
  verbosity : Z;
  encoding : option string;
}.

(** what the members of a module can be *)
Inductive PyObj : Type :=
| PClass (k : Klass)
| PInstance (i : Instance)
| POther (repr : string).

#[global] Instance Base_eq_dec : EqDecision Base.
Proof. solve_decision. Defined.
#[global] Instance KlassId_eq_dec : EqDecision KlassId.
Proof. solve_decision. Defined.
#[global] Instance Klass_eq_dec : EqDecision Klass.
Proof. solve_decision. Defined.
#[global] Instance Instance_eq_dec : EqDecision Instance.
Proof. solve_decision. Defined.
#[global] Instance PyObj_eq_dec : EqDecision PyObj.
Proof. solve_decision. Defined.

(** a loaded module: its members as [inspect.getmembers(module)] lists
    them, pairs of a name and an object sorted by name *)
Definition PyModule : Type := list (string * PyObj).

(** what [pkgutil.iter_modules] finds: where, under which name, and what
    loading it gives *)
Record unit_found : Type := mk_unit {
  path : string;
  name : string;
  load_module : result PyModule;
}.

Definition registry_t : Type := dict (dict Instance).

Definition base_object (b : Base) : KlassId := BaseKlass b.

Definition issubclass (k : Klass) (b : Base) : bool :=
  bool_decide (klass_id k = base_object b) || bool_decide (b ∈ bases k).

(** the class attribute [name] of [k]; only [language] and [target] are
    looked at *)
Definition class_attr (k : Klass) (name : string) : option string :=
  if decide (name = "language") then language k
  else if decide (name = "target") then target k
  else None.

Definition hasattr (k : Klass) (name : string) : bool :=
  bool_decide (is_Some (class_attr k name)).

(** [getattr(obj, key)] of an instance: the attribute of its class *)
Definition getattr (obj : Instance) (key : string) : result string :=
  match class_attr (class_of obj) key with
  | Some v => Ok v
  | None => Raise (OtherError "AttributeError")
  end.

Definition is_a (target_class : Base) (key_attr : string) (obj : PyObj)
  : bool :=
  match obj with
  | PClass k =>
      issubclass k target_class
      && negb (bool_decide (klass_id k = base_object target_class))
      && hasattr k key_attr
  | _ => false
  end.

Definition getmembers (module : PyModule) (predicate : PyObj -> bool)
  : PyModule :=
  filter (fun member => predicate member.2) module.

(** [set(xs) - set(ys)] over Python objects, listed in the order of first
    occurrence in [xs] (Python leaves the order of a set open) *)
Definition set_minus (xs ys : list PyObj) : list PyObj :=
  remove_dups (filter (fun x => bool_decide (x ∉ ys)) xs).

(** [[klass(verbosity, encoding) for klass in klasses_found]]; [created]
    are the instances made before *)
Fixpoint instantiate (klasses_found : list PyObj) (verbosity : Z)
    (encoding : option string) (created : list Instance)
  : result (list Instance * list Instance) :=
  match klasses_found with
  | [] => Ok ([], created)
  | PClass k :: rest =>
      let obj := {| class_of := k; serial := length created;
                    verbosity := verbosity; encoding := encoding |} in
      '(objs, created') ← instantiate rest verbosity encoding
                            (created ++ [obj]);
      Ok (obj :: objs, created')
  | _ :: _ => Raise (OtherError "TypeError")
  end.

(** [for obj in objs: container[getattr(obj, key)] = obj] *)
Fixpoint store (objs : list Instance) (key : string)
    (container : dict Instance) : result (dict Instance) :=
  match objs with
  | [] => Ok container
  | obj :: objs' =>
      k ← getattr obj key;
      store objs' key (set k obj container)
  end.

(** the three kinds of plugin [load_modules] looks for *)
Definition kinds : list (Base * string * string) :=
  [(Interpreter, "language", "interpreters");
   (ExampleParser, "language", "parsers");
   (MatchFinder, "target", "finders")].

(** the body of the inner [for] of [load_modules] for one kind *)
Definition load_kind (module : PyModule) (verbosity : Z)
    (encoding : option string) (kind : Base * string * string)
    (st : registry_t * list Instance)
  : result (registry_t * list Instance) :=
  let '(klass, key, what) := kind in
  let '(registry, created) := st in
  container ← item what registry;
  let klasses_found := getmembers module (is_a klass key) in
  let klasses_found :=
    match klasses_found with
    | [] => []
    | _ :: _ =>
        (* remove already loaded *)
        set_minus (map snd klasses_found)
          (map PInstance (values container))
    end in
  '(objs, created) ← instantiate klasses_found verbosity encoding created;
  container ← store objs key container;
  Ok (set what container registry, created).

Fixpoint load_kinds (module : PyModule) (verbosity : Z)
    (encoding : option string) (ks : list (Base * string * string))
    (st : registry_t * list Instance)
  : result (registry_t * list Instance) :=
  match ks with
  | [] => Ok st
  | kind :: ks' =>
      st' ← load_kind module verbosity encoding kind st;
      load_kinds module verbosity encoding ks' st'
  end.

(** the outer [for] of [load_modules]; a unit that fails to load is
    skipped *)
Fixpoint load_units (units : list unit_found) (verbosity : Z)
    (encoding : option string) (st : registry_t * list Instance)
  : result (registry_t * list Instance) :=
  match units with
  | [] => Ok st
  | u :: units' =>
      match load_module u with
      | Raise _ => load_units units' verbosity encoding st
      | Ok module =>
          st' ← load_kinds module verbosity encoding kinds st;
          load_units units' verbosity encoding st'
      end
  end.

Definition empty_registry : registry_t :=
  [("interpreters", []); ("finders", []); ("parsers", [])].

(** [load_modules]; [units] is what [pkgutil.iter_modules(dirnames)]
    yields.  Next to the registry it gives the instances it created, in the
    order of creation. *)
Definition load_modules (units : list unit_found) (verbosity : Z)
    (encoding : option string) : result (registry_t * list Instance) :=
  load_units units verbosity encoding (empty_registry, []).

(** [[obj.language for obj in container.values()]] *)
Fixpoint languages_of (objs : list Instance) : result (list string) :=
  match objs with
  | [] => Ok []
  | obj :: objs' =>
      l ← getattr obj "language";
      ls ← languages_of objs';
      Ok (l :: ls)
  end.

(** [str(not_found)] *)
Definition str_of_set (X : gset string) : string :=
  "set([" +:+ String.concat ", " (elements X) +:+ "])".

Definition not_found_message (not_found : gset string) : string :=
  "The following languages were specified "
  +:+ "but they were not found in any module:" +:+ Str.nl
  +:+ str_of_set not_found.

Definition get_allowed_languages (registry : registry_t)
    (selected : list string) : result (gset string) :=
  interpreters ← item "interpreters" registry;
  ls1 ← languages_of (values interpreters);
  parsers ← item "parsers" registry;
  ls2 ← languages_of (values parsers);
  let available : gset string := list_to_set (ls1 ++ ls2) in
  let selected : gset string := list_to_set selected in
  let not_found := selected ∖ available in
  if decide (not_found = ∅) then Ok selected
  else Raise (ValueError (not_found_message not_found)).

(** [get_encoding]; [version_major] is [sys.version_info[0]] *)
Definition get_encoding (version_major : nat) (encoding : option string)
  : option string :=
  if (version_major <=? 2)%nat then None else encoding.

(** the namespace [parse_args] returns *)
Record Namespace : Type := mk_args {
  files : list string;
  fail_fast : bool;
  dry : bool;
  skip : list string;
  search : list string;
  diff : option string;
  enhance_diff : bool;
  languages : list string;
  args_encoding : option string;
  no_color : bool;
  args_verbosity : Z;
  quiet : bool;
}.

(** the [Options] that [main] builds *)
Record Options : Type := mk_options {
  FAIL_FAST : bool; WS : bool; PASS : bool; SKIP : bool;
  ENHANCE_DIFF : bool; TIMEOUT : Z;
  UDIFF : bool; NDIFF : bool; CDIFF : bool;
}.

(** what [main] did to the files: [Parsed f] for a call of
    [get_examples_from_file] on [f], [Ran f result] for a call of
    [runner.run] on the examples of [f] and what it returned *)
Inductive step : Type :=
| Parsed (filename : string)
| Ran (filename : string) (result : bool * bool).

(** [values.split(',')], for any one-character separator: the pieces
    between the separators, empty pieces included *)
Fixpoint split_at (sep : ascii) (values : string) : list string :=
  match values with
  | "" => [""]
  | String c values' =>
      if bool_decide (c = sep) then "" :: split_at sep values'
      else
        match split_at sep values' with
        | piece :: pieces => String c piece :: pieces
        | [] => [String c ""]
        end
  end.

(** the action [CSV] of [parse_args], called for one [-l] option with its
    value: [getattr(namespace, self.dest).extend(values.split(','))] *)
Definition CSV_call (namespace : Namespace) (values : string) : Namespace :=
  {| files := files namespace; fail_fast := fail_fast namespace;
     dry := dry namespace; skip := skip namespace;
     search := search namespace; diff := diff namespace;
     enhance_diff := enhance_diff namespace;
     languages := languages namespace ++ split_at "," values;
     args_encoding := args_encoding namespace;
     no_color := no_color namespace;
     args_verbosity := args_verbosity namespace; quiet := quiet namespace |}.

(** the [Options(...)] of [main] *)
Definition options_of (args : Namespace) : Options :=
  {| FAIL_FAST := fail_fast args; WS := false; PASS := false;
     SKIP := false; ENHANCE_DIFF := enhance_diff args;
     TIMEOUT := 2;
     UDIFF := bool_decide (diff args = Some "unified");
     NDIFF := bool_decide (diff args = Some "ndiff");
     CDIFF := bool_decide (diff args = Some "context") |}.

Section Main.

(** The collaborators of [main] that live in other files of the package:
    the finder and the runner, acting on a state [World] (the files, the
    interpreters, the terminal), and what the module search finds. *)
Variable World : Type.
Variable ExampleSeq : Type.
Variable iter_modules : list string -> list unit_found.
Variable get_examples_from_file :
  gset string -> registry_t -> Options -> string -> option string ->
  World -> ExampleSeq * World.
Variable runner_run :
  ExampleSeq -> Options -> string -> World -> (bool * bool) * World.
Variable version_major : nat.

Definition testfiles_of (args : Namespace) : list string :=
  let allowed_files : gset string :=
    list_to_set (files args) ∖ list_to_set (skip args) in
  filter (fun f => f ∈ allowed_files) (files args).

(** the [for filename in testfiles] loop of [main] *)
Fixpoint run_files (args : Namespace) (allowed_languages : gset string)
    (registry : registry_t) (options : Options) (encoding : option string)
    (testfiles : list string) (exit_status : nat) (w : World)
  : nat * World * list step :=
  match testfiles with
  | [] => (exit_status, w, [])
  | filename :: testfiles' =>
      let '(examples, w) :=
        get_examples_from_file allowed_languages registry options filename
          encoding w in
      if dry args then
        let '(st, w, did) :=
          run_files args allowed_languages registry options encoding
            testfiles' exit_status w in
        (st, w, Parsed filename :: did)
      else
        let '(result, w) := runner_run examples options filename w in
        let '(failed, aborted_or_crashed) := result in
        let exit_status :=
          if failed then Nat.max exit_status 1 else exit_status in
        let exit_status :=
          if aborted_or_crashed then Nat.max exit_status 2
          else exit_status in
        if (failed || aborted_or_crashed) && FAIL_FAST options then
          (exit_status, w, [Parsed filename; Ran filename result])
        else
          let '(st, w, did) :=
            run_files args allowed_languages registry options encoding
              testfiles' exit_status w in
          (st, w, Parsed filename :: Ran filename result :: did)
  end.

(** [main]; [args] is what [parse_args] returns *)
Definition main (args : Namespace) (w : World)
  : result nat * World * list step :=
  let encoding := get_encoding version_major (args_encoding args) in
  match load_modules (iter_modules (search args)) (args_verbosity args)
          encoding with
  | Raise e => (Raise e, w, [])
  | Ok (registry, _) =>
      match get_allowed_languages registry (languages args) with
      | Raise e => (Raise e, w, [])
      | Ok allowed_languages =>
          let testfiles := testfiles_of args in
          let options := options_of args in
          let '(exit_status, w, did) :=
            run_files args allowed_languages registry options encoding
              testfiles 0 w in
          (Ok exit_status, w, did)
      end
  end.

End Main.

End Byexample.

(** ** Vocabulary of the properties *)

Module Spec.
Import Pexpect.

(** [s] ends with one line feed and no more *)
Definition ends_with_one_nl (s : string) : Prop :=
  exists p, s = p +:+ Str.nl /\ Str.endswith_char p Str.LF = false.

(** [s] ends with a line feed *)
Definition ends_with_nl (s : string) : Prop :=
  exists p, s = p +:+ Str.nl.

(** a terminal with every flag and speed at zero *)
Definition tty0 : termios_attr :=
  {| iflag := 0; oflag := 0; cflag := 0; lflag := 0;
     ispeed := 0; ospeed := 0; cc := [] |}.

(** a child that has read and written nothing yet and will write [evs] *)
Definition child_of (evs : list (Q * event)) : spawn :=
  {| stream := evs; before := ""; sent := []; tty := tty0; shown := [] |}.

(** a child that writes each text of [ps] after its delay, each followed
    at once by a prompt *)
Definition prompt_stream (ps : list (Q * string)) : list (Q * event) :=
  flat_map (fun p => [(p.1, Data p.2); (0%Q, Prompt)]) ps.

(** nothing arrives during the next [window] seconds *)
Definition silent_for (window : Q) (evs : list (Q * event)) : bool :=
  match evs with
  | [] => true
  | (d, _) :: _ => negb (Qle_bool d window)
  end.

(** the text that arrives within [budget] seconds, up to the first event
    that is not text *)
Fixpoint data_within (budget : Q) (evs : list (Q * event)) : string :=
  match evs with
  | (d, Data s) :: evs' =>
      if Qle_bool d budget then s +:+ data_within (budget - d)%Q evs'
      else ""
  | _ => ""
  end.


(** the flags of [termios] on Linux *)
Definition linux : Mixin.termios_flags :=
  {| Mixin.BRKINT := 2; Mixin.IGNPAR := 4; Mixin.ISTRIP := 32;
     Mixin.ICRNL := 256; Mixin.IXON := 1024;
     Mixin.OPOST := 1;
     Mixin.ECHO := 8; Mixin.ISIG := 1; Mixin.ICANON := 2 |}.

(** two concerns that note their calls in a log; the first returns a
    value from [start_run], the second overrides nothing else either *)
Definition logger (who : string)
  : Concern.Concern (list string) unit nat :=
  Concern.mk_concern (list string) unit nat who
    (fun method_name =>
       if decide (method_name = "start_run")
       then Some (fun _ log => (Ok 5, (log ++ [who])%list))
       else None).

Definition two_concerns
  : Dict.dict (Dict.dict (Concern.Concern (list string) unit nat)) :=
  [("concerns", [("progress", logger "progress"); ("timing", logger "timing")])].

(** how bad the result of one file is: 2 for an abort or a crash, 1 for a
    plain failure, 0 for a pass *)
Definition severity (result : bool * bool) : nat :=
  if result.2 then 2 else if result.1 then 1 else 0.

(** the files [main] handed to the finder, in order *)
Fixpoint parsed_of (did : list Byexample.step) : list string :=
  match did with
  | [] => []
  | Byexample.Parsed f :: did' => f :: parsed_of did'
  | Byexample.Ran _ _ :: did' => parsed_of did'
  end.

(** the files [main] ran, in order, and the results of the runs *)
Fixpoint ran_of (did : list Byexample.step) : list string :=
  match did with
  | [] => []
  | Byexample.Parsed _ :: did' => ran_of did'
  | Byexample.Ran f _ :: did' => f :: ran_of did'
  end.

Fixpoint results_of (did : list Byexample.step) : list (bool * bool) :=
  match did with
  | [] => []
  | Byexample.Parsed _ :: did' => results_of did'
  | Byexample.Ran _ r :: did' => r :: results_of did'
  end.

(** a class of a Python interpreter plugin, and a module that holds it
    next to the base class it imports *)
Definition PythonInterpreter : Byexample.Klass :=
  Byexample.mk_klass (Byexample.UserKlass 1) "PythonInterpreter"
    [Byexample.Interpreter] (Some "python") None.

Definition InterpreterBase : Byexample.Klass :=
  Byexample.mk_klass (Byexample.BaseKlass Byexample.Interpreter)
    "Interpreter" [] None None.

Definition python_module : Byexample.PyModule :=
  [("Interpreter", Byexample.PClass InterpreterBase);
   ("PythonInterpreter", Byexample.PClass PythonInterpreter);
   ("re", Byexample.POther "module re")].

Definition python_unit : Byexample.unit_found :=
  Byexample.mk_unit "modules" "python" (Ok python_module).

(** a second module that imports the same class *)
Definition shell_module : Byexample.PyModule :=
  [("PythonInterpreter", Byexample.PClass PythonInterpreter);
   ("os", Byexample.POther "module os")].

Definition shell_unit : Byexample.unit_found :=
  Byexample.mk_unit "modules" "shell" (Ok shell_module).

(** command lines: [byexample -l python a.md b.md], with [--ff] *)
Definition args_of (fail_fast : bool) (files skip languages : list string)
  : Byexample.Namespace :=
  {| Byexample.files := files; Byexample.fail_fast := fail_fast;
     Byexample.dry := false; Byexample.skip := skip;
     Byexample.search := ["modules"]; Byexample.diff := None;
     Byexample.enhance_diff := true; Byexample.languages := languages;
     Byexample.args_encoding := Some "utf-8"; Byexample.no_color := false;
     Byexample.args_verbosity := 0; Byexample.quiet := false |}.

(** collaborators for the examples: a finder that finds nothing to
    remember and a runner that gives each file the result [verdict] names *)
Definition find_nothing (allowed : gset string) (registry : Byexample.registry_t)
    (options : Byexample.Options) (filename : string)
    (encoding : option string) (w : unit) : unit * unit := (tt, w).

Definition run_with (verdict : string -> bool * bool) (examples : unit)
    (options : Byexample.Options) (filename : string) (w : unit)
  : (bool * bool) * unit := (verdict filename, w).

(** another class for the same language, in a module of its own *)
Definition OtherPython : Byexample.Klass :=
  Byexample.mk_klass (Byexample.UserKlass 2) "OtherPython"
    [Byexample.Interpreter] (Some "python") None.

Definition other_unit : Byexample.unit_found :=
  Byexample.mk_unit "modules" "other"
    (Ok [("OtherPython", Byexample.PClass OtherPython)]).

(** a discovered interpreter or parser of the registry has language [l] *)
Definition knows (registry : Byexample.registry_t) (l : string) : Prop :=
  exists what d obj,
    (what = "interpreters" \/ what = "parsers")
    /\ Dict.get what registry = Some d
    /\ obj ∈ Dict.values d
    /\ Byexample.language (Byexample.class_of obj) = Some l.

(** every object of the container has the attribute [key] *)
Definition all_have (key : string) (d : Dict.dict Byexample.Instance)
  : Prop :=
  Forall (fun obj => is_Some (Byexample.class_attr (Byexample.class_of obj) key))
    (Dict.values d).

(** the shape of the registry [load_modules] builds: the three containers
    are there and each object has the attribute its container is keyed by *)
Definition well_formed (registry : Byexample.registry_t) : Prop :=
  exists interpreters finders parsers,
    registry = [("interpreters", interpreters); ("finders", finders);
                ("parsers", parsers)]
    /\ all_have "language" interpreters
    /\ all_have "target" finders
    /\ all_have "language" parsers.

(** the class of [obj] is a class [load_modules] takes for a plugin of the
    kind with base [klass] and identity attribute [key]: a subclass of the
    base, not the base itself, that has the attribute *)
Definition plugin_of (klass : Byexample.Base) (key : string)
    (obj : Byexample.Instance) : Prop :=
  Byexample.is_a klass key (Byexample.PClass (Byexample.class_of obj)) = true.

(** every entry of the container is filed under the value of the attribute
    [key] of its object, which is a plugin of the kind and one of the
    objects in [created] *)
Definition filed_in (klass : Byexample.Base) (key : string)
    (container : Dict.dict Byexample.Instance)
    (created : list Byexample.Instance) : Prop :=
  Forall (fun entry =>
            Byexample.class_attr (Byexample.class_of entry.2) key
            = Some entry.1
            /\ entry.2 ∈ created
            /\ plugin_of klass key entry.2)
    container.

(** the registry and the objects created fit together *)
Definition registry_filed (registry : Byexample.registry_t)
    (created : list Byexample.Instance) : Prop :=
  exists interpreters finders parsers,
    registry = [("interpreters", interpreters); ("finders", finders);
                ("parsers", parsers)]
    /\ filed_in Byexample.Interpreter "language" interpreters created
    /\ filed_in Byexample.MatchFinder "target" finders created
    /\ filed_in Byexample.ExampleParser "language" parsers created
    /\ Forall (fun obj =>
                 plugin_of Byexample.Interpreter "language" obj
                 \/ plugin_of Byexample.ExampleParser "language" obj
                 \/ plugin_of Byexample.MatchFinder "target" obj)
         created.

(** the identity values under which the container [what] has entries *)
Definition keys_of (what : string) (registry : Byexample.registry_t)
  : list string :=
  match Dict.get what registry with
  | Some container => Dict.keys container
  | None => []
  end.

(** the unit loads *)
Definition loads (u : Byexample.unit_found) : bool :=
  match Byexample.load_module u with
  | Ok _ => true
  | Raise _ => false
  end.

End Spec.

(** * Properties *)

Local Open Scope list_scope.

(** ** Strings *)

Lemma append_cons (a : ascii) (s t : string) :
  String a s +:+ t = String a (s +:+ t).
Proof. reflexivity. Qed.

Lemma append_nil_l (t : string) : "" +:+ t = t.
Proof. reflexivity. Qed.

Lemma append_nil_r (s : string) : s +:+ "" = s.
Proof.
  induction s as [|a s IH]; [done|]. by rewrite append_cons, IH.
Qed.

Lemma append_assoc (a b c : string) : (a +:+ b) +:+ c = a +:+ (b +:+ c).
Proof.
  induction a as [|x a IH]; [done|]. by rewrite !append_cons, IH.
Qed.

Lemma CR_neq_LF : Str.CR <> Str.LF.
Proof. discriminate. Qed.

Lemma sub_crlf_cons2 (x y : ascii) (s : string) :
  Str.sub_crlf (String x (String y s))
  = if bool_decide (x = Str.CR) && bool_decide (y = Str.LF)
    then String Str.LF (Str.sub_crlf s)
    else String x (Str.sub_crlf (String y s)).
Proof. reflexivity. Qed.

(** every carriage return plus line feed of the text becomes one line
    feed, whatever stands around it *)
Lemma sub_crlf_app_crlf (a b : string) :
  Str.sub_crlf (a +:+ Str.crlf +:+ b)
  = Str.sub_crlf a +:+ Str.nl +:+ Str.sub_crlf b.
Proof.
  remember (String.length a) as n eqn:Hn.
  assert (Hle : String.length a <= n) by lia. clear Hn.
  revert a Hle. induction n as [n IH] using lt_wf_ind. intros a Hle.
  destruct a as [|x [|y a]].
  - rewrite append_nil_l. unfold Str.crlf. rewrite append_cons, append_cons.
    rewrite sub_crlf_cons2, append_nil_l.
    by rewrite !bool_decide_eq_true_2 by done.
  - unfold Str.crlf. rewrite !append_cons, append_nil_l.
    rewrite sub_crlf_cons2.
    rewrite (bool_decide_eq_false_2 (Str.CR = Str.LF)) by done.
    rewrite andb_false_r, sub_crlf_cons2.
    by rewrite !bool_decide_eq_true_2 by done.
  - simpl in Hle. rewrite !append_cons, !sub_crlf_cons2.
    destruct (bool_decide (x = Str.CR) && bool_decide (y = Str.LF)) eqn:E.
    + rewrite (IH (String.length a)) by lia. done.
    + rewrite <- (append_cons y a).
      rewrite (IH (String.length (String y a))) by (simpl; lia).
      done.
Qed.

(** a text without carriage return plus line feed stays as it is *)
Lemma sub_crlf_id (s : string) :
  ~ Str.contains Str.crlf s -> Str.sub_crlf s = s.
Proof.
  remember (String.length s) as n eqn:Hn.
  assert (Hle : String.length s <= n) by lia. clear Hn.
  revert s Hle. induction n as [n IH] using lt_wf_ind. intros s Hle Hno.
  destruct s as [|x [|y s]]; [done | done |].
  simpl in Hle. rewrite sub_crlf_cons2.
  destruct (bool_decide (x = Str.CR) && bool_decide (y = Str.LF)) eqn:E.
  - apply andb_true_iff in E as [->%bool_decide_eq_true ->%bool_decide_eq_true].
    exfalso. apply Hno. exists "", s. done.
  - f_equal. apply (IH (String.length (String y s))); [simpl; lia | done |].
    intros (p & q & Hpq). apply Hno. exists (String x p), q.
    by rewrite append_cons, Hpq.
Qed.

Lemma endswith_char_app (s : string) (c : ascii) :
  Str.endswith_char s c = true -> exists p, s = p +:+ String c "".
Proof.
  induction s as [|a s IH]; [done|].
  destruct s as [|b s].
  - simpl. intros ->%bool_decide_eq_true. by exists "".
  - intros H. destruct (IH H) as [p Hp]. exists (String a p).
    by rewrite append_cons, <- Hp.
Qed.

Lemma endswith_char_snoc (p : string) (c : ascii) :
  Str.endswith_char (p +:+ String c "") c = true.
Proof.
  induction p as [|a p IH].
  - rewrite append_nil_l. simpl. by apply bool_decide_eq_true_2.
  - rewrite append_cons.
    destruct (p +:+ String c "") eqn:E; [by destruct p | done].
Qed.

Lemma join_app (xs ys : list string) :
  Str.join (xs ++ ys) = Str.join xs +:+ Str.join ys.
Proof.
  induction xs as [|x xs IH]; simpl; [done|].
  by rewrite IH, append_assoc.
Qed.

(** ** [_get_output] *)

Lemma sub_crlf_nonempty (s : string) : Str.sub_crlf s = "" -> s = "".
Proof.
  destruct s as [|x [|y s]]; [done | done |].
  rewrite sub_crlf_cons2. by destruct (_ && _).
Qed.

Lemma universal_new_lines_cases (out : string) :
  let t := Str.sub_crlf out in
  (t = "" -> Mixin._universal_new_lines out = "")
  /\ (Str.endswith_char t Str.LF = true -> Mixin._universal_new_lines out = t)
  /\ (t <> "" -> Str.endswith_char t Str.LF = false ->
      Mixin._universal_new_lines out = t +:+ Str.nl).
Proof.
  unfold Mixin._universal_new_lines. cbn zeta.
  destruct (Str.sub_crlf out) as [|a t] eqn:E.
  - split_and!; [done | done | done].
  - simpl Str.truthy. rewrite andb_true_l.
    destruct (Str.endswith_char (String a t) Str.LF); split_and!; done.
Qed.

Lemma universal_new_lines_ends (out : string) :
  Mixin._universal_new_lines out <> "" ->
  Spec.ends_with_nl (Mixin._universal_new_lines out).
Proof.
  unfold Mixin._universal_new_lines, Spec.ends_with_nl. cbn zeta.
  destruct (Str.sub_crlf out) as [|a t] eqn:E; [done|].
  simpl Str.truthy. rewrite andb_true_l.
  destruct (Str.endswith_char (String a t) Str.LF) eqn:Hend; simpl; intros _.
  - by apply endswith_char_app.
  - by eexists.
Qed.

(** C1, as the code has it: [_get_output] joins the buffered chunks,
    removes what the secondary prompt pattern matches when one is
    configured, replaces every carriage return plus line feed by one line
    feed, appends a line feed when the text is not empty and does not end
    with one already, so that a result that is not empty ends with at least
    one line feed, and leaves the buffer empty and the rest of the session
    as it was. *)
Theorem get_output_normalized :
  forall (Pattern : Type) (re_sub_empty : Pattern -> string -> string)
         (self : Mixin.PexepctMixin Pattern),
    let joined := Str.join (Mixin.last_output Pattern self) in
    let text :=
      match Mixin.any_PS_re Pattern self with
      | Some re => re_sub_empty re joined
      | None => joined
      end in
    let t := Str.sub_crlf text in
    let out := (Mixin._get_output Pattern re_sub_empty self).1 in
    let self' := (Mixin._get_output Pattern re_sub_empty self).2 in
    (forall a b, text = a +:+ Str.crlf +:+ b ->
                 t = Str.sub_crlf a +:+ Str.nl +:+ Str.sub_crlf b)
    /\ (~ Str.contains Str.crlf text -> t = text)
    /\ (t = "" -> out = "")
    /\ (Str.endswith_char t Str.LF = true -> out = t)
    /\ (t <> "" -> Str.endswith_char t Str.LF = false -> out = t +:+ Str.nl)
    /\ (out <> "" -> Spec.ends_with_nl out)
    /\ (out = "" <-> text = "")
    /\ Mixin.last_output Pattern self' = []
    /\ Mixin.interpreter Pattern self' = Mixin.interpreter Pattern self
    /\ Mixin.any_PS_re Pattern self' = Mixin.any_PS_re Pattern self
    /\ Mixin.PS1_re Pattern self' = Mixin.PS1_re Pattern self.
Proof.
  intros Pattern re_sub_empty self joined text t out self'.
  assert (Hout : out = Mixin._universal_new_lines text).
  { subst out text joined. unfold Mixin._get_output. simpl.
    by destruct (Mixin.any_PS_re Pattern self). }
  destruct (universal_new_lines_cases text) as (H1 & H2 & H3).
  split_and!.
  - intros a b ->. apply sub_crlf_app_crlf.
  - apply sub_crlf_id.
  - by rewrite Hout.
  - by rewrite Hout.
  - by rewrite Hout.
  - rewrite Hout. apply universal_new_lines_ends.
  - rewrite Hout. split.
    + intros Hempty. apply sub_crlf_nonempty.
      destruct (Str.sub_crlf text) as [|a u] eqn:E; [done|].
      destruct (Str.endswith_char (String a u) Str.LF) eqn:Hend.
      * rewrite H2 in Hempty by done. done.
      * rewrite H3 in Hempty by done. done.
    + intros ->. done.
  - done.
  - done.
  - done.
  - done.
Qed.

(** C1, as stated, fails: a buffer that ends with two line feeds gives a
    result that ends with two line feeds, not with exactly one. *)
Lemma get_output_two_terminators :
  ~ (forall (Pattern : Type) (re_sub_empty : Pattern -> string -> string)
            (self : Mixin.PexepctMixin Pattern),
       let out := (Mixin._get_output Pattern re_sub_empty self).1 in
       out <> "" -> Spec.ends_with_one_nl out).
Proof.
  intros H.
  specialize (H unit (fun _ s => s)
    (Mixin.mk_mixin unit "python" tt None ["a" +:+ Str.nl +:+ Str.nl]
       (Spec.child_of []))).
  cbn zeta in H.
  destruct H as (p & Hp & Hend); [by vm_compute|].
  vm_compute in Hp.
  destruct p as [|x [|y [|z p]]]; try discriminate Hp;
    rewrite ?append_cons, ?append_nil_l in Hp.
  - injection Hp as <- <-. by vm_compute in Hend.
  - by destruct p.
Qed.

(** ** [_expect_prompt] *)

Lemma while_settle_unfold (Pattern : Type) (what : nat)
    (self : Mixin.PexepctMixin Pattern) :
  Mixin.while_settle Pattern what self
  = if decide (what = Pexpect.Timeout) then (Ok tt, self)
    else match Pexpect.expect Mixin.settle_window
                 (Mixin.interpreter Pattern self) with
         | (Raise e, c) => (Raise e, Mixin.set_interpreter Pattern c self)
         | (Ok what', c) =>
             Mixin.while_settle Pattern what'
               (Mixin.append_before Pattern
                  (Mixin.set_interpreter Pattern c self))
         end.
Proof.
  simp while_settle.
  destruct (decide (what = Pexpect.Timeout)) as [Heq|Hne];
    simp while_settle; [done|].
  destruct (Mixin.inspect (Pexpect.expect Mixin.settle_window
                             (Mixin.interpreter Pattern self)))
    as [[r c] H].
  destruct r; simp while_settle; rewrite H; simp while_settle; done.
Qed.


Lemma Qle_bool_minus (d budget : Q) :
  Qle_bool d budget = true -> Qle_bool 0 (budget - d) = true.
Proof.
  rewrite !Qle_bool_iff. intros H. unfold Qminus.
  by apply Qle_minus_iff in H.
Qed.

(** a text and its prompt that arrive in time are matched *)
Lemma expect_scan_prompt (budget d : Q) (seen b : string)
    (evs : list (Q * Pexpect.event)) :
  Qle_bool d budget = true ->
  Pexpect.expect_scan budget seen
    ((d, Pexpect.Data b) :: (0%Q, Pexpect.Prompt) :: evs)
  = (Ok Pexpect.PS1_found, evs, seen +:+ b).
Proof.
  intros H. simpl. rewrite H. by rewrite (Qle_bool_minus _ _ H).
Qed.

(** silence ends the call with [Timeout] and nothing read *)
Lemma expect_scan_silent (budget : Q) (seen : string)
    (evs : list (Q * Pexpect.event)) :
  Spec.silent_for budget evs = true ->
  exists evs', Pexpect.expect_scan budget seen evs
               = (Ok Pexpect.Timeout, evs', seen).
Proof.
  destruct evs as [|[d e] evs]; simpl; [by eexists|].
  intros H%negb_true_iff. rewrite H. by eexists.
Qed.

(** what a call that times out leaves in [before] *)
Lemma expect_scan_timeout (budget : Q) (seen : string)
    (evs evs' : list (Q * Pexpect.event)) (b : string) :
  Pexpect.expect_scan budget seen evs = (Ok Pexpect.Timeout, evs', b) ->
  b = seen +:+ Spec.data_within budget evs.
Proof.
  revert budget seen. induction evs as [|[d e] evs IH]; intros budget seen.
  - simpl. intros [= _ <-]. by rewrite append_nil_r.
  - simpl. destruct (Qle_bool d budget).
    + destruct e.
      * intros H%IH. by rewrite H, append_assoc.
      * intros [=].
      * intros [=].
    + intros [= _ <-]. destruct e; by rewrite append_nil_r.
Qed.

Lemma expect_timeout_before (timeout : Q) (c c' : Pexpect.spawn) :
  Pexpect.expect timeout c = (Ok Pexpect.Timeout, c') ->
  Pexpect.before c' = Spec.data_within timeout (Pexpect.stream c).
Proof.
  unfold Pexpect.expect.
  destruct (Pexpect.expect_scan timeout "" (Pexpect.stream c))
    as [[r evs] b] eqn:E.
  intros [= -> <-]. simpl. by apply expect_scan_timeout in E.
Qed.

(** the way out of [_expect_prompt] when the first wait times out *)
Lemma expect_prompt_timeout (Pattern : Type) (timeout : Q)
    (self : Mixin.PexepctMixin Pattern) (c : Pexpect.spawn) :
  Pexpect.expect timeout (Mixin.interpreter Pattern self)
  = (Ok Pexpect.Timeout, c) ->
  Mixin._expect_prompt Pattern timeout self
  = (Raise (TimeoutException (Mixin.stall_message (Pexpect.before c))),
     Mixin.append_before Pattern (Mixin.set_interpreter Pattern c self)).
Proof.
  intros H. unfold Mixin._expect_prompt. rewrite H. done.
Qed.

(** the settle loop takes every prompt that comes within the window and
    stops at the first silence *)
Lemma while_settle_collects (Pattern : Type) (ps : list (Q * string))
    (rest : list (Q * Pexpect.event)) (self : Mixin.PexepctMixin Pattern) :
  Pexpect.stream (Mixin.interpreter Pattern self)
  = Spec.prompt_stream ps ++ rest ->
  Forall (fun p => Qle_bool p.1 Mixin.settle_window = true) ps ->
  Spec.silent_for Mixin.settle_window rest = true ->
  exists self',
    Mixin.while_settle Pattern Pexpect.PS1_found self = (Ok tt, self')
    /\ Mixin.last_output Pattern self'
       = Mixin.last_output Pattern self ++ map snd ps ++ [""]
    /\ Mixin.any_PS_re Pattern self' = Mixin.any_PS_re Pattern self.
Proof.
  revert self. induction ps as [|[d b] ps IH]; intros self Hs Hin Hsil.
  - simpl in Hs. rewrite while_settle_unfold. simpl.
    unfold Pexpect.expect. rewrite Hs.
    destruct (expect_scan_silent Mixin.settle_window "" rest Hsil)
      as [evs' ->].
    rewrite while_settle_unfold. simpl. eexists. split_and!; done.
  - apply Forall_cons in Hin as [Hd Hin]. simpl in Hd.
    rewrite while_settle_unfold. simpl.
    unfold Pexpect.expect. rewrite Hs. simpl Spec.prompt_stream.
    rewrite <- !app_comm_cons.
    rewrite (expect_scan_prompt _ _ _ _ _ Hd).
    cbn iota beta.
    match goal with
    | |- context [Mixin.while_settle _ _ ?s] =>
        destruct (IH s) as (self' & Hw & Hl & Ha);
          [reflexivity | exact Hin | exact Hsil |]
    end.
    exists self'. split_and!; [exact Hw | | exact Ha].
    rewrite Hl. simpl. by rewrite <- app_assoc.
Qed.

Lemma get_output_fst (Pattern : Type)
    (re_sub_empty : Pattern -> string -> string)
    (self : Mixin.PexepctMixin Pattern) :
  (Mixin._get_output Pattern re_sub_empty self).1
  = Mixin._universal_new_lines
      (match Mixin.any_PS_re Pattern self with
       | Some re => re_sub_empty re (Str.join (Mixin.last_output Pattern self))
       | None => Str.join (Mixin.last_output Pattern self)
       end).
Proof.
  unfold Mixin._get_output. simpl.
  by destruct (Mixin.any_PS_re Pattern self).
Qed.

(** C2: when the child shows one prompt before the deadline and then
    further prompts, each within the settle window of the one before, and
    then keeps silent, [_expect_prompt] returns after the first silent
    window with the text before every one of these prompts in the buffer,
    and the [_get_output] that follows gives one text made of all of
    them. *)
Theorem expect_prompt_settles :
  forall (Pattern : Type) (re_sub_empty : Pattern -> string -> string)
         (timeout : Q) (self : Mixin.PexepctMixin Pattern)
         (d : Q) (b : string) (ps : list (Q * string))
         (rest : list (Q * Pexpect.event)),
    Pexpect.stream (Mixin.interpreter Pattern self)
    = Spec.prompt_stream ((d, b) :: ps) ++ rest ->
    Qle_bool d timeout = true ->
    Forall (fun p => Qle_bool p.1 Mixin.settle_window = true) ps ->
    Spec.silent_for Mixin.settle_window rest = true ->
    exists self',
      Mixin._expect_prompt Pattern timeout self = (Ok tt, self')
      /\ Mixin.last_output Pattern self'
         = Mixin.last_output Pattern self ++ (b :: map snd ps) ++ [""]
      /\ (Mixin._get_output Pattern re_sub_empty self').1
         = Mixin._universal_new_lines
             (match Mixin.any_PS_re Pattern self with
              | Some re =>
                  re_sub_empty re
                    (Str.join (Mixin.last_output Pattern self
                               ++ b :: map snd ps))
              | None =>
                  Str.join (Mixin.last_output Pattern self
                            ++ b :: map snd ps)
              end)
      /\ Mixin.last_output Pattern
           (Mixin._get_output Pattern re_sub_empty self').2 = [].
Proof.
  intros Pattern re_sub_empty timeout self d b ps rest Hs Hd Hin Hsil.
  unfold Mixin._expect_prompt, Pexpect.expect. rewrite Hs.
  simpl Spec.prompt_stream. rewrite <- !app_comm_cons.
  rewrite (expect_scan_prompt _ _ _ _ _ Hd). cbn iota beta zeta.
  rewrite decide_True by done.
  match goal with
  | |- context [Mixin.while_settle _ _ ?s] =>
      destruct (while_settle_collects Pattern ps rest s)
        as (self' & Hw & Hl & Ha); [reflexivity | exact Hin | exact Hsil |]
  end.
  exists self'. split; [exact Hw|].
  assert (Hl' : Mixin.last_output Pattern self'
                = Mixin.last_output Pattern self ++ (b :: map snd ps) ++ [""]).
  { rewrite Hl. simpl. by rewrite <- app_assoc. }
  split; [exact Hl'|]. split; [|done].
  rewrite get_output_fst, Ha, Hl'. simpl Mixin.any_PS_re.
  assert (Hj : Str.join (Mixin.last_output Pattern self
                         ++ (b :: map snd ps) ++ [""])
               = Str.join (Mixin.last_output Pattern self
                           ++ b :: map snd ps)).
  { rewrite app_assoc, join_app. simpl. by rewrite !append_nil_r. }
  by rewrite Hj.
Qed.

Lemma expect_prompt_settles_witness :
  exists self',
    Mixin._expect_prompt unit 2
      (Mixin.mk_mixin unit "python" tt None []
         (Spec.child_of (Spec.prompt_stream [(1 # 2, "1"); (1 # 100, "2")])))
    = (Ok tt, self')
    /\ Mixin.last_output unit self' = [] ++ ["1"; "2"] ++ [""]
    /\ (Mixin._get_output unit (fun _ s => s) self').1
       = Mixin._universal_new_lines (Str.join ([] ++ ["1"; "2"]))
    /\ Mixin.last_output unit
         (Mixin._get_output unit (fun _ s => s) self').2 = [].
Proof.
  apply (expect_prompt_settles unit (fun _ s => s) 2
           (Mixin.mk_mixin unit "python" tt None []
              (Spec.child_of
                 (Spec.prompt_stream [(1 # 2, "1"); (1 # 100, "2")])))
           (1 # 2) "1" [(1 # 100, "2")] []).
  - reflexivity.
  - reflexivity.
  - repeat constructor.
  - reflexivity.
Defined.

Lemma drop_suffix (n : nat) (s : string) : exists p, s = p +:+ Str.drop n s.
Proof.
  revert s. induction n as [|n IH]; intros s.
  - by exists "".
  - destruct s as [|a s]; [by exists ""|].
    destruct (IH s) as [p Hp]. exists (String a p).
    simpl. by rewrite append_cons, <- Hp.
Qed.

Lemma drop_length (n : nat) (s : string) :
  String.length (Str.drop n s) = String.length s - n.
Proof.
  revert s. induction n as [|n IH]; intros s; simpl; [lia|].
  destruct s as [|a s]; simpl; [done | apply IH].
Qed.

Lemma last_n_length (n : nat) (s : string) :
  String.length (Str.last_n n s) = Nat.min n (String.length s).
Proof. unfold Str.last_n. rewrite drop_length. lia. Qed.

(** C3: when the first wait for the prompt times out, [_expect_prompt]
    raises [TimeoutException]; its message names both causes, slow code and
    a syntax error, and ends with the last 1000 characters (all of them
    when there are fewer, none when there are none) of the text read before
    the deadline. *)
Theorem expect_prompt_stall_error :
  forall (Pattern : Type) (timeout : Q) (self : Mixin.PexepctMixin Pattern)
         (c : Pexpect.spawn),
    Pexpect.expect timeout (Mixin.interpreter Pattern self)
    = (Ok Pexpect.Timeout, c) ->
    let seen :=
      Spec.data_within timeout
        (Pexpect.stream (Mixin.interpreter Pattern self)) in
    exists msg tail,
      (Mixin._expect_prompt Pattern timeout self).1
      = Raise (TimeoutException msg)
      /\ msg = "Prompt not found: the code is taking too long to finish or there is a syntax error."
               +:+ Str.nl +:+ "Last 1000 bytes read:" +:+ Str.nl +:+ tail
      /\ (exists p, seen = p +:+ tail)
      /\ String.length tail = Nat.min 1000 (String.length seen)
      /\ (seen = "" -> tail = "")
      /\ Str.contains "the code is taking too long to finish" msg
      /\ Str.contains "there is a syntax error" msg.
Proof.
  intros Pattern timeout self c H seen.
  rewrite (expect_prompt_timeout _ _ _ _ H).
  rewrite (expect_timeout_before _ _ _ H). fold seen.
  exists (Mixin.stall_message seen), (Str.last_n 1000 seen).
  split_and!.
  - done.
  - done.
  - apply drop_suffix.
  - apply last_n_length.
  - by intros ->.
  - exists "Prompt not found: ".
    exists (" or there is a syntax error." +:+ Str.nl
            +:+ "Last 1000 bytes read:" +:+ Str.nl +:+ Str.last_n 1000 seen).
    reflexivity.
  - exists "Prompt not found: the code is taking too long to finish or ".
    exists ("." +:+ Str.nl +:+ "Last 1000 bytes read:" +:+ Str.nl
            +:+ Str.last_n 1000 seen).
    reflexivity.
Qed.

Lemma expect_prompt_stall_error_witness :
  exists msg tail,
    (Mixin._expect_prompt unit 2
       (Mixin.mk_mixin unit "python" tt None []
          (Spec.child_of [(1 # 2, Pexpect.Data "[ 1, 2,")]))).1
    = Raise (TimeoutException msg)
    /\ msg = "Prompt not found: the code is taking too long to finish or there is a syntax error."
             +:+ Str.nl +:+ "Last 1000 bytes read:" +:+ Str.nl +:+ tail
    /\ (exists p, "[ 1, 2," = p +:+ tail)
    /\ String.length tail = Nat.min 1000 (String.length "[ 1, 2,")
    /\ ("[ 1, 2," = "" -> tail = "")
    /\ Str.contains "the code is taking too long to finish" msg
    /\ Str.contains "there is a syntax error" msg.
Proof.
  apply (expect_prompt_stall_error unit 2
           (Mixin.mk_mixin unit "python" tt None []
              (Spec.child_of [(1 # 2, Pexpect.Data "[ 1, 2,")]))
           (Pexpect.mk_spawn
              [(0%Q, Pexpect.Data "[ 1, 2,")] "[ 1, 2," [] Spec.tty0 [])).
  reflexivity.
Defined.

(** C9: when [_expect_prompt] raises the stall error, the text read before
    the deadline is already the last chunk of the buffer, behind what the
    buffer held, and a [_get_output] after the error still returns it. *)
Theorem stall_keeps_output :
  forall (Pattern : Type) (re_sub_empty : Pattern -> string -> string)
         (timeout : Q) (self : Mixin.PexepctMixin Pattern)
         (c : Pexpect.spawn),
    Pexpect.expect timeout (Mixin.interpreter Pattern self)
    = (Ok Pexpect.Timeout, c) ->
    let seen :=
      Spec.data_within timeout
        (Pexpect.stream (Mixin.interpreter Pattern self)) in
    exists msg self',
      Mixin._expect_prompt Pattern timeout self
      = (Raise (TimeoutException msg), self')
      /\ Mixin.last_output Pattern self'
         = Mixin.last_output Pattern self ++ [seen]
      /\ (Mixin._get_output Pattern re_sub_empty self').1
         = Mixin._universal_new_lines
             (match Mixin.any_PS_re Pattern self with
              | Some re =>
                  re_sub_empty re
                    (Str.join (Mixin.last_output Pattern self) +:+ seen)
              | None => Str.join (Mixin.last_output Pattern self) +:+ seen
              end).
Proof.
  intros Pattern re_sub_empty timeout self c H seen.
  rewrite (expect_prompt_timeout _ _ _ _ H).
  eexists _, _. split; [reflexivity|].
  assert (Hl : Mixin.last_output Pattern
                 (Mixin.append_before Pattern
                    (Mixin.set_interpreter Pattern c self))
               = Mixin.last_output Pattern self ++ [seen]).
  { simpl. subst seen. by rewrite (expect_timeout_before _ _ _ H). }
  split; [exact Hl|].
  rewrite get_output_fst, Hl, join_app. simpl Str.join.
  by rewrite append_nil_r.
Qed.

Lemma stall_keeps_output_witness :
  exists msg self',
    Mixin._expect_prompt unit 2
      (Mixin.mk_mixin unit "python" tt None ["old"]
         (Spec.child_of [(1 # 2, Pexpect.Data "[ 1, 2,")]))
    = (Raise (TimeoutException msg), self')
    /\ Mixin.last_output unit self' = ["old"] ++ ["[ 1, 2,"]
    /\ (Mixin._get_output unit (fun _ s => s) self').1
       = Mixin._universal_new_lines (Str.join ["old"] +:+ "[ 1, 2,").
Proof.
  apply (stall_keeps_output unit (fun _ s => s) 2
           (Mixin.mk_mixin unit "python" tt None ["old"]
              (Spec.child_of [(1 # 2, Pexpect.Data "[ 1, 2,")]))
           (Pexpect.mk_spawn
              [(0%Q, Pexpect.Data "[ 1, 2,")] "[ 1, 2," [] Spec.tty0 [])).
  reflexivity.
Defined.

(** a session that prints 2 and shows its prompt gives the text with the
    line ending made uniform; an open bracket stalls *)
Example exec_and_wait_print :
  (Mixin._exec_and_wait unit (fun _ s => s) "print(1+1)" 2
     (Mixin.mk_mixin unit "python" tt None []
        (Spec.child_of
           [(1 # 100, Pexpect.Data ("2" +:+ Str.crlf));
            (0%Q, Pexpect.Prompt)]))).1
  = Ok ("2" +:+ Str.nl).
Proof. vm_compute. reflexivity. Qed.

Example exec_and_wait_stalls :
  (Mixin._exec_and_wait unit (fun _ s => s) "[ 1, 2," 1
     (Mixin.mk_mixin unit "python" tt None [] (Spec.child_of []))).1
  = Raise (TimeoutException (Mixin.stall_message "")).
Proof. vm_compute. reflexivity. Qed.

(** ** [interact] *)

(** during the session the terminal does change: typed text puts it in
    cooked mode *)
Example interact_session_cooks :
  Pexpect.tty
    (Pexpect.interact "029"%char
       (Mixin.ensure_cooked_mode unit Spec.linux None
          (Mixin.mk_mixin unit "python" tt None [] (Spec.child_of [])))
       None [Pexpect.Typed "1 + 1"] (Spec.child_of [])).2
  = Pexpect.mk_attr 1318 1 0 11 0 0 [].
Proof. reflexivity. Qed.

(** C6: whatever the user and the child do during the session, whatever
    the filters do, and whether the session ends normally or with an
    exception, after [interact] the terminal of the child has the
    attributes it had at entry; an exception of the session is passed on
    after that. *)
Theorem interact_restores_terminal :
  forall (Pattern : Type) (termios : Mixin.termios_flags)
         (send' : string) (escape_character : ascii)
         (input_filter output_filter : option (string -> result string))
         (script : list Pexpect.action) (self : Mixin.PexepctMixin Pattern),
    let attr := Pexpect.tcgetattr (Mixin.interpreter Pattern self) in
    let c0 := if Str.truthy send'
              then Pexpect.send send' (Mixin.interpreter Pattern self)
              else Mixin.interpreter Pattern self in
    let session :=
      Pexpect.interact escape_character
        (Mixin.ensure_cooked_mode Pattern termios input_filter self)
        output_filter script c0 in
    let out :=
      Mixin.interact Pattern termios send' escape_character input_filter
        output_filter script self in
    Pexpect.tty (Mixin.interpreter Pattern out.2) = attr
    /\ out.1 = session.1
    /\ (forall e, session.1 = Raise e ->
          out.1 = Raise e
          /\ Pexpect.tty (Mixin.interpreter Pattern out.2) = attr)
    /\ (session.1 = Ok tt ->
          out.1 = Ok tt
          /\ Pexpect.tty (Mixin.interpreter Pattern out.2) = attr)
    /\ Mixin.interpreter Pattern out.2 = Pexpect.tcsetattr attr session.2.
Proof.
  intros Pattern termios send' esc input_filter output_filter script self
    attr c0 session out.
  subst out. unfold Mixin.interact. fold c0. fold session.
  destruct session as [r c]. simpl. split_and!; done.
Qed.

(** ** [ConcernComposite] *)





(** both loggers ran, in the order of the registry, and the value the
    hooks returned is dropped *)
Example composite_call_two_concerns :
  exists self,
    Concern.init (list string) unit nat Spec.two_concerns = Ok self
    /\ (Concern.composite_call (list string) unit nat 0 self
          "start_run" tt []).1
       = (Ok 0, ["progress"; "timing"]).
Proof. eexists. split; reflexivity. Qed.

(** the registry that [load_modules] starts from has no entry for
    concerns: a composite cannot be built from a registry with its keys *)
Lemma init_without_concerns (World Args Value : Type)
    (registry : Dict.dict (Dict.dict (Concern.Concern World Args Value))) :
  Dict.keys registry = Dict.keys Byexample.empty_registry ->
  Concern.init World Args Value registry = Raise (KeyError "concerns").
Proof.
  destruct registry as [|[k1 v1] [|[k2 v2] [|[k3 v3] [|]]]]; try done.
  intros [= -> -> ->]. reflexivity.
Qed.

(** ** [main]: the exit status *)


Lemma max_list_severity_0 (rs : list (bool * bool)) :
  max_list (map Spec.severity rs) = 0
  <-> Forall (fun r => r = (false, false)) rs.
Proof.
  induction rs as [|[f a] rs IH]; simpl.
  - split; [constructor | done].
  - rewrite Forall_cons, <- IH. unfold Spec.severity at 1; simpl.
    destruct a, f; simpl;
      (split;
       [intros H; first [lia | split; [done | lia]]
       |intros [H1 H2]; first [discriminate H1 | lia]]).
Qed.



Lemma run_files_status (World ExampleSeq : Type)
    (get_examples_from_file :
       gset string -> Byexample.registry_t -> Byexample.Options -> string ->
       option string -> World -> ExampleSeq * World)
    (runner_run :
       ExampleSeq -> Byexample.Options -> string -> World ->
       (bool * bool) * World)
    (args : Byexample.Namespace) (allowed : gset string)
    (registry : Byexample.registry_t) (options : Byexample.Options)
    (encoding : option string) (testfiles : list string) (e0 : nat)
    (w : World) :
  let out :=
    Byexample.run_files World ExampleSeq get_examples_from_file runner_run
      args allowed registry options encoding testfiles e0 w in
  out.1.1 = Nat.max e0 (max_list (map Spec.severity (Spec.results_of out.2))).
Proof.
  revert e0 w. induction testfiles as [|f fs IH]; intros e0 w; simpl.
  - lia.
  - destruct (get_examples_from_file allowed registry options f encoding w)
      as [examples w1].
    destruct (Byexample.dry args).
    + specialize (IH e0 w1). cbn zeta in IH.
      destruct (Byexample.run_files _ _ _ _ _ _ _ _ _ fs e0 w1)
        as [[st w2] did]. simpl in *. exact IH.
    + destruct (runner_run examples options f w1) as [[failed ab] w2].
      destruct ((failed || ab) && Byexample.FAIL_FAST options).
      * simpl. unfold Spec.severity; simpl. destruct failed, ab; lia.
      * match goal with
        | |- context [Byexample.run_files _ _ _ _ _ _ _ _ _ fs ?e w2] =>
            specialize (IH e w2); cbn zeta in IH;
            destruct (Byexample.run_files World ExampleSeq
                        get_examples_from_file runner_run args allowed
                        registry options encoding fs e w2)
              as [[st w3] did]
        end.
        simpl in *. rewrite IH. unfold Spec.severity; simpl.
        destruct failed, ab; lia.
Qed.

Lemma run_files_parsed (World ExampleSeq : Type)
    (get_examples_from_file :
       gset string -> Byexample.registry_t -> Byexample.Options -> string ->
       option string -> World -> ExampleSeq * World)
    (runner_run :
       ExampleSeq -> Byexample.Options -> string -> World ->
       (bool * bool) * World)
    (args : Byexample.Namespace) (allowed : gset string)
    (registry : Byexample.registry_t) (options : Byexample.Options)
    (encoding : option string) (testfiles : list string) (e0 : nat)
    (w : World) :
  let out :=
    Byexample.run_files World ExampleSeq get_examples_from_file runner_run
      args allowed registry options encoding testfiles e0 w in
  Spec.parsed_of out.2 `prefix_of` testfiles
  /\ (Spec.parsed_of out.2 = testfiles
      \/ (Byexample.dry args = false
          /\ Byexample.FAIL_FAST options = true
          /\ exists rs r, Spec.results_of out.2 = rs ++ [r]
                          /\ r.1 || r.2 = true))
  /\ (Byexample.dry args = false -> Spec.ran_of out.2 = Spec.parsed_of out.2)
  /\ (Byexample.dry args = true -> Spec.results_of out.2 = []).
Proof.
  revert e0 w. induction testfiles as [|f fs IH]; intros e0 w; simpl.
  - split_and!; [done | by left | done | done].
  - destruct (get_examples_from_file allowed registry options f encoding w)
      as [examples w1].
    destruct (Byexample.dry args) eqn:Hdry.
    + specialize (IH e0 w1). cbn zeta in IH.
      destruct (Byexample.run_files _ _ _ _ _ _ _ _ _ fs e0 w1)
        as [[st w2] did]. simpl in *.
      destruct IH as (Hp & Hor & _ & Hr). split_and!.
      * by apply prefix_cons.
      * destruct Hor as [->|(? & _)]; [by left | done].
      * done.
      * done.
    + destruct (runner_run examples options f w1) as [[failed ab] w2].
      destruct ((failed || ab) && Byexample.FAIL_FAST options) eqn:Hff.
      * simpl. apply andb_true_iff in Hff as [Hbad Hff]. split_and!.
        -- apply prefix_cons, prefix_nil.
        -- right. split_and!; [done | done |]. by exists [], (failed, ab).
        -- done.
        -- done.
      * match goal with
        | |- context [Byexample.run_files _ _ _ _ _ _ _ _ _ fs ?e w2] =>
            specialize (IH e w2); cbn zeta in IH;
            destruct (Byexample.run_files World ExampleSeq
                        get_examples_from_file runner_run args allowed
                        registry options encoding fs e w2)
              as [[st w3] did]
        end.
        simpl in *. destruct IH as (Hp & Hor & Hran & _). split_and!.
        -- by apply prefix_cons.
        -- destruct Hor as [->|(_ & Hf & rs & r & -> & Hbad)]; [by left|].
           right. split_and!; [done | done |].
           by exists ((failed, ab) :: rs), r.
        -- intros _. by rewrite Hran.
        -- done.
Qed.

Lemma filter_ext_elem {A : Type} (P Q : A -> Prop)
    `{!forall x, Decision (P x)} `{!forall x, Decision (Q x)} (l : list A) :
  (forall x, x ∈ l -> (P x <-> Q x)) -> filter P l = filter Q l.
Proof.
  induction l as [|x l IH]; intros Hext; [done|].
  rewrite !filter_cons.
  rewrite IH by (intros y Hy; apply Hext; by right).
  assert (Hx : P x <-> Q x) by (apply Hext; by left).
  destruct (decide (P x)) as [HP|HP], (decide (Q x)) as [HQ|HQ];
    [done | by apply Hx in HP | by apply Hx in HQ | done].
Qed.

(** the files [main] goes through are the files given that are not to be
    skipped, in the order given, each as often as it was given *)
Lemma testfiles_of_filter (args : Byexample.Namespace) :
  Byexample.testfiles_of args
  = filter (fun f => f ∉ Byexample.skip args) (Byexample.files args).
Proof.
  unfold Byexample.testfiles_of. cbn zeta.
  apply filter_ext_elem. intros f Hf.
  rewrite elem_of_difference, !elem_of_list_to_set. tauto.
Qed.




(** ** [main]: the files it goes through *)




(** ** [get_allowed_languages] *)

Lemma languages_of_ok (objs : list Byexample.Instance) :
  Forall (fun obj =>
            is_Some (Byexample.class_attr (Byexample.class_of obj) "language"))
    objs ->
  exists ls,
    Byexample.languages_of objs = Ok ls
    /\ forall l, l ∈ ls
                 <-> exists obj, obj ∈ objs
                       /\ Byexample.language (Byexample.class_of obj) = Some l.
Proof.
  induction objs as [|obj objs IH]; intros Hall.
  - exists []. split; [done|]. intros l. split.
    + by intros ?%elem_of_nil.
    + by intros (obj & ?%elem_of_nil & _).
  - apply Forall_cons in Hall as [[l0 Hl0] Hall].
    destruct (IH Hall) as (ls & Hls & Hiff).
    exists (l0 :: ls). split.
    + simpl. unfold Byexample.getattr. rewrite Hl0. simpl.
      rewrite Hls. done.
    + intros l. rewrite elem_of_cons, Hiff. split.
      * intros [->|(o & Ho & Hlang)].
        -- exists obj. split; [by left | exact Hl0].
        -- exists o. split; [by right | done].
      * intros (o & [->|Ho]%elem_of_cons & Hlang).
        -- left. unfold Byexample.class_attr in Hl0. simpl in Hl0. congruence.
        -- right. by exists o.
Qed.

Lemma get_allowed_languages_spec (registry : Byexample.registry_t)
    (selected : list string) :
  Spec.well_formed registry ->
  ((exists l, l ∈ selected /\ ~ Spec.knows registry l) ->
   exists msg, Byexample.get_allowed_languages registry selected
               = Raise (ValueError msg))
  /\ ((forall l, l ∈ selected -> Spec.knows registry l) ->
      Byexample.get_allowed_languages registry selected
      = Ok (list_to_set selected)).
Proof.
  intros (ins & fs & pars & -> & His & _ & Hps).
  destruct (languages_of_ok _ His) as (ls1 & H1 & Hiff1).
  destruct (languages_of_ok _ Hps) as (ls2 & H2 & Hiff2).
  assert (Hknows : forall l, Spec.knows
                     [("interpreters", ins); ("finders", fs); ("parsers", pars)] l
                   <-> l ∈ ls1 ++ ls2).
  { intros l. rewrite elem_of_app, Hiff1, Hiff2. split.
    - intros (what & d & obj & [->| ->] & Hget & Hobj & Hl);
        simpl in Hget; injection Hget as <-; [left | right]; by exists obj.
    - intros [(obj & Hobj & Hl)|(obj & Hobj & Hl)].
      + exists "interpreters", ins, obj. split_and!; [by left | done..].
      + exists "parsers", pars, obj. split_and!; [by right | done..]. }
  unfold Byexample.get_allowed_languages. simpl. rewrite H1. simpl.
  rewrite H2. simpl.
  split.
  - intros (l & Hl & Hunk). rewrite decide_False.
    + by eexists.
    + intros Hempty. apply Hunk, Hknows.
      assert (Hin : l ∉ (list_to_set selected ∖ list_to_set (ls1 ++ ls2)
                         : gset string))
        by (rewrite Hempty; apply not_elem_of_empty).
      rewrite elem_of_difference, !elem_of_list_to_set in Hin.
      destruct (decide (l ∈ ls1 ++ ls2)); [done | exfalso; auto].
  - intros Hall. rewrite decide_True; [done|].
    apply set_eq. intros l.
    rewrite elem_of_difference, !elem_of_list_to_set.
    split; [|by intros ?%elem_of_empty].
    intros [Hl Hno]. exfalso. apply Hno, Hknows, Hall, Hl.
Qed.

(** ** [load_modules] keeps the registry well formed *)

Lemma values_set_elem {V : Type} (k : string) (v x : V) (d : Dict.dict V) :
  x ∈ Dict.values (Dict.set k v d) -> x = v \/ x ∈ Dict.values d.
Proof.
  unfold Dict.values. induction d as [|[k' v'] d IH]; simpl.
  - intros ?%list_elem_of_singleton. by left.
  - destruct (decide (k = k')); simpl; rewrite !elem_of_cons.
    + intros [->|?]; [by left | right; by right].
    + intros [->|H]; [right; by left|].
      destruct (IH H) as [->|?]; [by left | right; by right].
Qed.

Lemma store_all_have (objs : list Byexample.Instance) (key : string)
    (container container' : Dict.dict Byexample.Instance) :
  Byexample.store objs key container = Ok container' ->
  Spec.all_have key container -> Spec.all_have key container'.
Proof.
  revert container. induction objs as [|obj objs IH]; intros container; simpl.
  - by intros [= ->].
  - unfold Byexample.getattr.
    destruct (Byexample.class_attr (Byexample.class_of obj) key)
      as [k|] eqn:Hk; [|done].
    simpl. intros Hs Hall. apply (IH _ Hs).
    unfold Spec.all_have in *. rewrite Forall_forall in *.
    intros x [->|Hx]%values_set_elem; [by rewrite Hk | by apply Hall].
Qed.

Lemma load_kind_well_formed (module : Byexample.PyModule) (verbosity : Z)
    (encoding : option string) (kind : Byexample.Base * string * string)
    (st st' : Byexample.registry_t * list Byexample.Instance) :
  kind ∈ Byexample.kinds ->
  Byexample.load_kind module verbosity encoding kind st = Ok st' ->
  Spec.well_formed st.1 -> Spec.well_formed st'.1.
Proof.
  intros Hk Hload (ins & fs & pars & Hreg & Hi & Hf & Hp).
  destruct st as [registry created]. simpl in Hreg. subst registry.
  unfold Byexample.kinds in Hk.
  rewrite !elem_of_cons, elem_of_nil in Hk.
  destruct Hk as [->|[->|[->|[]]]]; unfold Byexample.load_kind in Hload;
    simpl in Hload;
    match type of Hload with
    | context [Byexample.instantiate ?ks verbosity encoding created] =>
        destruct (Byexample.instantiate ks verbosity encoding created)
          as [[objs created']|] eqn:Hinst; [|done]
    end; simpl in Hload;
    match type of Hload with
    | context [Byexample.store ?o ?key ?c] =>
        destruct (Byexample.store o key c) as [c'|] eqn:Hstore; [|done]
    end; simpl in Hload; injection Hload as <-; simpl.
  - exists c', fs, pars. split_and!; try done.
    by apply (store_all_have _ _ _ _ Hstore).
  - exists ins, fs, c'. split_and!; try done.
    by apply (store_all_have _ _ _ _ Hstore).
  - exists ins, c', pars. split_and!; try done.
    by apply (store_all_have _ _ _ _ Hstore).
Qed.

Lemma load_kinds_well_formed (module : Byexample.PyModule) (verbosity : Z)
    (encoding : option string)
    (ks : list (Byexample.Base * string * string))
    (st st' : Byexample.registry_t * list Byexample.Instance) :
  ks ⊆ Byexample.kinds ->
  Byexample.load_kinds module verbosity encoding ks st = Ok st' ->
  Spec.well_formed st.1 -> Spec.well_formed st'.1.
Proof.
  revert st. induction ks as [|kind ks IH]; intros st Hsub; simpl.
  - by intros [= ->].
  - destruct (Byexample.load_kind module verbosity encoding kind st)
      as [st1|] eqn:Hk; [|done].
    simpl. intros Hks Hwf. apply (IH st1); [| done |].
    + intros x Hx. apply Hsub. by right.
    + apply (load_kind_well_formed _ _ _ _ _ _ (Hsub kind ltac:(by left)) Hk
               Hwf).
Qed.

Lemma load_units_well_formed (units : list Byexample.unit_found)
    (verbosity : Z) (encoding : option string)
    (st st' : Byexample.registry_t * list Byexample.Instance) :
  Byexample.load_units units verbosity encoding st = Ok st' ->
  Spec.well_formed st.1 -> Spec.well_formed st'.1.
Proof.
  revert st. induction units as [|u units IH]; intros st.
  - by intros [= ->].
  - cbn [Byexample.load_units].
    destruct (Byexample.load_module u) as [module|e]; [|apply IH].
    destruct (Byexample.load_kinds module verbosity encoding Byexample.kinds
                st) as [st1|] eqn:Hk; [|done].
    intros Hu Hwf. apply (IH st1 Hu).
    by apply (load_kinds_well_formed _ _ _ _ _ _ (reflexivity _) Hk).
Qed.

(** the registry of [load_modules] has its three containers, and every
    plugin in them has the attribute it is filed under *)
Lemma load_modules_well_formed (units : list Byexample.unit_found)
    (verbosity : Z) (encoding : option string)
    (registry : Byexample.registry_t) (created : list Byexample.Instance) :
  Byexample.load_modules units verbosity encoding = Ok (registry, created) ->
  Spec.well_formed registry.
Proof.
  intros H.
  apply (load_units_well_formed _ _ _ _ _ H).
  exists [], [], []. split_and!; [done | constructor..].
Qed.

(** C7: on the registry that [load_modules] builds, for every selection of
    languages, [get_allowed_languages] raises [ValueError] when some
    selected language is the language of no discovered interpreter and of
    no discovered parser, and returns the set of the selected languages
    when each of them is known; in the first case [main] raises that error
    with no file touched and the state as it was. *)
Theorem unknown_language_is_configuration_error :
  forall (World ExampleSeq : Type)
         (iter_modules : list string -> list Byexample.unit_found)
         (get_examples_from_file :
            gset string -> Byexample.registry_t -> Byexample.Options ->
            string -> option string -> World -> ExampleSeq * World)
         (runner_run :
            ExampleSeq -> Byexample.Options -> string -> World ->
            (bool * bool) * World)
         (version_major : nat) (args : Byexample.Namespace) (w : World)
         (registry : Byexample.registry_t)
         (created : list Byexample.Instance),
    Byexample.load_modules (iter_modules (Byexample.search args))
      (Byexample.args_verbosity args)
      (Byexample.get_encoding version_major (Byexample.args_encoding args))
    = Ok (registry, created) ->
    (forall selected : list string,
        ((exists l, l ∈ selected /\ ~ Spec.knows registry l) ->
         exists msg, Byexample.get_allowed_languages registry selected
                     = Raise (ValueError msg))
        /\ ((forall l, l ∈ selected -> Spec.knows registry l) ->
            Byexample.get_allowed_languages registry selected
            = Ok (list_to_set selected)))
    /\ ((exists l, l ∈ Byexample.languages args /\ ~ Spec.knows registry l) ->
        exists msg,
          Byexample.main World ExampleSeq iter_modules get_examples_from_file
            runner_run version_major args w
          = (Raise (ValueError msg), w, [])).
Proof.
  intros World ExampleSeq iter_modules get_examples_from_file runner_run
    version_major args w registry created Hl.
  pose proof (load_modules_well_formed _ _ _ _ _ Hl) as Hwf.
  split.
  - intros selected. by apply get_allowed_languages_spec.
  - intros Hunk.
    destruct (get_allowed_languages_spec registry (Byexample.languages args)
                Hwf) as [Hraise _].
    destruct (Hraise Hunk) as [msg Hmsg]. exists msg.
    unfold Byexample.main. cbn zeta. by rewrite Hl, Hmsg.
Qed.

Lemma unknown_language_is_configuration_error_witness :
  let registry :=
    [("interpreters",
      [("python", Byexample.mk_instance Spec.PythonInterpreter 0 0 None)]);
     ("finders", []); ("parsers", [])] in
  let args := Spec.args_of false ["a.md"] [] ["python"; "ruby"] in
  (forall selected : list string,
      ((exists l, l ∈ selected /\ ~ Spec.knows registry l) ->
       exists msg, Byexample.get_allowed_languages registry selected
                   = Raise (ValueError msg))
      /\ ((forall l, l ∈ selected -> Spec.knows registry l) ->
          Byexample.get_allowed_languages registry selected
          = Ok (list_to_set selected)))
  /\ ((exists l, l ∈ Byexample.languages args /\ ~ Spec.knows registry l) ->
      exists msg,
        Byexample.main unit unit (fun _ => [Spec.python_unit])
          Spec.find_nothing (Spec.run_with (fun _ => (false, false))) 2
          args tt
        = (Raise (ValueError msg), tt, [])).
Proof.
  apply (unknown_language_is_configuration_error unit unit
           (fun _ => [Spec.python_unit]) Spec.find_nothing
           (Spec.run_with (fun _ => (false, false))) 2
           (Spec.args_of false ["a.md"] [] ["python"; "ruby"]) tt
           [("interpreters",
             [("python",
               Byexample.mk_instance Spec.PythonInterpreter 0 0 None)]);
            ("finders", []); ("parsers", [])]
           [Byexample.mk_instance Spec.PythonInterpreter 0 0 None]).
  reflexivity.
Defined.

(** the language [ruby] of that command line is unknown, and [main] stops
    before the first file *)
Example main_unknown_ruby :
  exists msg,
    Byexample.main unit unit (fun _ => [Spec.python_unit])
      Spec.find_nothing (Spec.run_with (fun _ => (false, false))) 2
      (Spec.args_of false ["a.md"] [] ["python"; "ruby"]) tt
    = (Raise (ValueError msg), tt, []).
Proof. eexists. vm_compute. reflexivity. Qed.

(** ** [load_modules]: classes found again *)

(** the difference that is to remove the classes already loaded compares
    classes with the instances in the container, and so removes nothing *)
Lemma set_minus_removes_nothing (ks : list Byexample.Klass)
    (objs : list Byexample.Instance) :
  Byexample.set_minus (map Byexample.PClass ks)
    (map Byexample.PInstance objs)
  = remove_dups (map Byexample.PClass ks).
Proof.
  unfold Byexample.set_minus. f_equal.
  induction ks as [|k ks IH]; [done|].
  simpl. rewrite filter_cons, IH.
  destruct (decide _) as [Hin|Hin]; [done|].
  exfalso. apply Hin. apply bool_decide_pack.
  by intros (i & ? & _)%list_elem_of_fmap.
Qed.

(** C8, on a search that finds two modules with the same class object in
    both: the class is made an instance of once for each module, and the
    second instance takes the place of the first in the container. *)
Theorem rescanned_class_instantiated_twice :
  Byexample.load_modules [Spec.python_unit; Spec.shell_unit] 0 None
  = Ok ([("interpreters",
          [("python", Byexample.mk_instance Spec.PythonInterpreter 1 0 None)]);
         ("finders", []); ("parsers", [])],
        [Byexample.mk_instance Spec.PythonInterpreter 0 0 None;
         Byexample.mk_instance Spec.PythonInterpreter 1 0 None]).
Proof. reflexivity. Qed.

(** a class found later for a language that is taken replaces the entry *)
Example later_class_replaces :
  Byexample.load_modules [Spec.python_unit; Spec.other_unit] 0 None
  = Ok ([("interpreters",
          [("python", Byexample.mk_instance Spec.OtherPython 1 0 None)]);
         ("finders", []); ("parsers", [])],
        [Byexample.mk_instance Spec.PythonInterpreter 0 0 None;
         Byexample.mk_instance Spec.OtherPython 1 0 None]).
Proof. reflexivity. Qed.

(** a unit that fails to load is skipped *)
Example failed_unit_skipped :
  Byexample.load_modules
    [Byexample.mk_unit "modules" "broken" (Raise (OtherError "ImportError"));
     Spec.python_unit] 0 None
  = Byexample.load_modules [Spec.python_unit] 0 None.
Proof. reflexivity. Qed.

(** * Further properties *)

(** ** Line endings *)

Lemma contains_cons (sub : string) (x : ascii) (t : string) :
  Str.contains sub (String x t) ->
  (exists q, String x t = sub +:+ q) \/ Str.contains sub t.
Proof.
  intros ([|a p] & q & H).
  - left. by exists q.
  - right. rewrite append_cons in H. injection H as _ H. by exists p, q.
Qed.

Lemma contains_cons_r (sub : string) (x : ascii) (t : string) :
  Str.contains sub t -> Str.contains sub (String x t).
Proof.
  intros (p & q & ->). exists (String x p), q. by rewrite append_cons.
Qed.

Lemma sub_crlf_head_LF (t q : string) :
  Str.sub_crlf t = String Str.LF q ->
  (exists t', t = String Str.LF t')
  \/ (exists t', t = String Str.CR (String Str.LF t')).
Proof.
  destruct t as [|y [|z t]]; [done | |].
  - simpl. intros [= -> _]. left. by eexists.
  - rewrite sub_crlf_cons2.
    destruct (bool_decide (y = Str.CR) && bool_decide (z = Str.LF)) eqn:E.
    + apply andb_true_iff in E
        as [->%bool_decide_eq_true ->%bool_decide_eq_true].
      intros _. right. by eexists.
    + intros [= -> _]. left. by eexists.
Qed.

(** a carriage return plus line feed is left after the substitution only
    where the text had two carriage returns before the line feed *)
Lemma sub_crlf_leaves_crlf (s : string) :
  Str.contains Str.crlf (Str.sub_crlf s) ->
  Str.contains (String Str.CR Str.crlf) s.
Proof.
  remember (String.length s) as n eqn:Hn.
  assert (Hle : String.length s <= n) by lia. clear Hn.
  revert s Hle. induction n as [n IH] using lt_wf_ind. intros s Hle.
  destruct s as [|x [|y s]].
  - intros ([|? ?] & q & H); discriminate H.
  - intros ([|? [|? ?]] & q & H); discriminate H.
  - simpl in Hle. rewrite sub_crlf_cons2.
    destruct (bool_decide (x = Str.CR) && bool_decide (y = Str.LF)) eqn:E.
    + intros [[q Hq]|Hc]%contains_cons.
      * discriminate Hq.
      * do 2 apply contains_cons_r.
        apply (IH (String.length s)); [lia | done | done].
    + intros [[q Hq]|Hc]%contains_cons.
      * unfold Str.crlf in Hq. rewrite append_cons in Hq.
        injection Hq as -> Hq. rewrite append_cons, append_nil_l in Hq.
        change (Str.sub_crlf (String y s) = String Str.LF q) in Hq.
        apply sub_crlf_head_LF in Hq as [[t' Ht]|[t' Ht]].
        -- injection Ht as -> _.
           rewrite !bool_decide_eq_true_2 in E by done. done.
        -- injection Ht as -> ->. by exists "", t'.
      * apply contains_cons_r.
        apply (IH (String.length (String y s))); [simpl; lia | done | done].
Qed.

Lemma endswith_char_cons (x c : ascii) (t : string) :
  t <> "" -> Str.endswith_char (String x t) c = Str.endswith_char t c.
Proof. by destruct t. Qed.

Lemma sub_crlf_ends_CR (s : string) :
  Str.endswith_char (Str.sub_crlf s) Str.CR = true ->
  Str.endswith_char s Str.CR = true.
Proof.
  remember (String.length s) as n eqn:Hn.
  assert (Hle : String.length s <= n) by lia. clear Hn.
  revert s Hle. induction n as [n IH] using lt_wf_ind. intros s Hle.
  destruct s as [|x [|y s]]; [done | done |].
  simpl in Hle. rewrite sub_crlf_cons2.
  destruct (bool_decide (x = Str.CR) && bool_decide (y = Str.LF)) eqn:E.
  - destruct (Str.sub_crlf s) as [|a u] eqn:Es.
    + by vm_compute.
    + rewrite endswith_char_cons by done. rewrite <- Es. intros H.
      apply (IH (String.length s)) in H; [| lia | done].
      rewrite !endswith_char_cons; [done | by destruct s | done].
  - assert (Hne : Str.sub_crlf (String y s) <> "").
    { intros H%sub_crlf_nonempty. done. }
    rewrite endswith_char_cons by done. intros H.
    apply (IH (String.length (String y s))) in H; [| simpl; lia | done].
    by rewrite endswith_char_cons.
Qed.

Lemma contains_crlf_snoc_nl (t : string) :
  Str.contains Str.crlf (t +:+ Str.nl) ->
  Str.contains Str.crlf t \/ Str.endswith_char t Str.CR = true.
Proof.
  induction t as [|x t IH].
  - intros ([|? [|? ?]] & q & H); discriminate H.
  - rewrite append_cons. intros [[q Hq]|Hc]%contains_cons.
    + unfold Str.crlf in Hq. rewrite append_cons in Hq.
      injection Hq as -> Hq. rewrite append_cons, append_nil_l in Hq.
      destruct t as [|y t].
      * right. by vm_compute.
      * rewrite append_cons in Hq. injection Hq as -> _.
        left. by exists "", t.
    + destruct (IH Hc) as [H|H].
      * left. by apply contains_cons_r.
      * right. rewrite endswith_char_cons; [done | by destruct t].
Qed.

(** X1: the text [_universal_new_lines] returns has no carriage return
    plus line feed left, unless the text it was given has two carriage
    returns before a line feed or ends with a carriage return. *)
Theorem universal_new_lines_no_crlf :
  forall out : string,
    ~ Str.contains (String Str.CR Str.crlf) out ->
    Str.endswith_char out Str.CR = false ->
    ~ Str.contains Str.crlf (Mixin._universal_new_lines out).
Proof.
  intros out Hno Hend Hc.
  assert (Hsub : ~ Str.contains Str.crlf (Str.sub_crlf out)).
  { intros H. by apply Hno, sub_crlf_leaves_crlf. }
  unfold Mixin._universal_new_lines in Hc. cbn zeta in Hc.
  destruct (Str.truthy (Str.sub_crlf out)
            && negb (Str.endswith_char (Str.sub_crlf out) Str.LF)).
  - apply contains_crlf_snoc_nl in Hc as [H|H]; [done|].
    apply sub_crlf_ends_CR in H. congruence.
  - done.
Qed.

Lemma universal_new_lines_no_crlf_witness :
  ~ Str.contains Str.crlf
      (Mixin._universal_new_lines ("1" +:+ Str.crlf +:+ "2")).
Proof.
  apply (universal_new_lines_no_crlf ("1" +:+ Str.crlf +:+ "2")).
  - intros H.
    repeat (apply contains_cons in H as [[q H]|H]; [discriminate H|]).
    destruct H as ([|? ?] & q & H); discriminate H.
  - reflexivity.
Defined.

(** the two exceptions are real: each of these texts comes back with a
    carriage return plus line feed in it *)
Example universal_new_lines_keeps_crlf :
  Mixin._universal_new_lines (String Str.CR Str.crlf) = Str.crlf
  /\ Mixin._universal_new_lines ("a" +:+ String Str.CR "")
     = "a" +:+ Str.crlf.
Proof. split; reflexivity. Qed.

(** X2: on such a text [_universal_new_lines] is idempotent: a second pass
    changes nothing. *)
Theorem universal_new_lines_idempotent :
  forall out : string,
    ~ Str.contains (String Str.CR Str.crlf) out ->
    Str.endswith_char out Str.CR = false ->
    Mixin._universal_new_lines (Mixin._universal_new_lines out)
    = Mixin._universal_new_lines out.
Proof.
  intros out Hno Hend.
  assert (Hc : ~ Str.contains Str.crlf (Mixin._universal_new_lines out)).
  { intros Hc. unfold Mixin._universal_new_lines in Hc. cbn zeta in Hc.
    assert (Hsub : ~ Str.contains Str.crlf (Str.sub_crlf out))
      by (intros H; by apply Hno, sub_crlf_leaves_crlf).
    destruct (Str.truthy (Str.sub_crlf out)
              && negb (Str.endswith_char (Str.sub_crlf out) Str.LF));
      [|done].
    apply contains_crlf_snoc_nl in Hc as [H|H]; [done|].
    apply sub_crlf_ends_CR in H. congruence. }
  pose proof (universal_new_lines_ends out) as He.
  set (r := Mixin._universal_new_lines out) in *.
  unfold Mixin._universal_new_lines at 1. cbn zeta.
  rewrite (sub_crlf_id r Hc).
  destruct r as [|a r'] eqn:Er; [done|].
  destruct He as [p Hp]; [done|].
  rewrite Hp. unfold Str.nl. rewrite endswith_char_snoc.
  by rewrite andb_false_r.
Qed.

Lemma universal_new_lines_idempotent_witness :
  Mixin._universal_new_lines
    (Mixin._universal_new_lines ("1" +:+ Str.crlf +:+ "2"))
  = Mixin._universal_new_lines ("1" +:+ Str.crlf +:+ "2").
Proof.
  apply (universal_new_lines_idempotent ("1" +:+ Str.crlf +:+ "2")).
  - intros H.
    repeat (apply contains_cons in H as [[q H]|H]; [discriminate H|]).
    destruct H as ([|? ?] & q & H); discriminate H.
  - reflexivity.
Defined.

(** ** The buffer of the session *)



(** X3: output is handed out once: right after a [_get_output], a second
    one returns the empty text (for a pattern that finds nothing to remove
    in the empty text, as every pattern does). *)
Theorem get_output_consumes :
  forall (Pattern : Type) (re_sub_empty : Pattern -> string -> string)
         (self : Mixin.PexepctMixin Pattern),
    (forall re, re_sub_empty re "" = "") ->
    Mixin._get_output Pattern re_sub_empty
      (Mixin._get_output Pattern re_sub_empty self).2
    = ("", (Mixin._get_output Pattern re_sub_empty self).2).
Proof.
  intros Pattern re_sub_empty self Hre.
  unfold Mixin._get_output at 1. simpl.
  destruct (Mixin.any_PS_re Pattern self) as [re|]; [|done].
  by rewrite Hre.
Qed.

Lemma get_output_consumes_witness :
  Mixin._get_output unit (fun _ s => s)
    (Mixin._get_output unit (fun _ s => s)
       (Mixin.mk_mixin unit "python" tt (Some tt) ["1"; "2"]
          (Spec.child_of []))).2
  = ("", (Mixin._get_output unit (fun _ s => s)
            (Mixin.mk_mixin unit "python" tt (Some tt) ["1"; "2"]
               (Spec.child_of []))).2).
Proof.
  apply (get_output_consumes unit (fun _ s => s)
           (Mixin.mk_mixin unit "python" tt (Some tt) ["1"; "2"]
              (Spec.child_of []))).
  reflexivity.
Defined.










(** ** [set_cooked_mode] *)



















(** ** Composites of concerns *)

(** X10: a composite over the concerns [cs1] followed by [cs2] does what
    the composite over [cs1] does and then, on the state that one leaves
    and only when it raised nothing, what the composite over [cs2] does;
    an exception of the first part keeps the second from being called. *)
Theorem composite_of_concatenation :
  forall (World Args Value : Type) (none : Value)
         (cs1 cs2 : list (Concern.Concern World Args Value))
         (method_name : string) (args : Args) (w : World),
    let run := fun cs =>
      Concern.for_each_concern_do World Args Value none method_name
        (Concern.mk_composite World Args Value cs) args in
    run (cs1 ++ cs2) w
    = match run cs1 w with
      | (Ok _, w1, made1) =>
          let '(r, w2, made2) := run cs2 w1 in (r, w2, made1 ++ made2)
      | (Raise e, w1, made1) => (Raise e, w1, made1)
      end.
Proof.
  intros World Args Value none cs1 cs2 method_name args w run.
  subst run. unfold Concern.for_each_concern_do. simpl.
  revert w. induction cs1 as [|c cs1 IH]; intros w; simpl.
  - by destruct (Concern.for_each World Args Value none cs2 method_name
                   args w) as [[r w2] made2].
  - destruct (Concern.call World Args Value none c method_name args w)
      as [[v|e] w'].
    + rewrite IH.
      destruct (Concern.for_each World Args Value none cs1 method_name
                  args w') as [[[v1|e1] w1] made1]; [|done].
      by destruct (Concern.for_each World Args Value none cs2 method_name
                     args w1) as [[r w2] made2].
    + done.
Qed.

(** X11: a concern that does not override a hook plays no part in a call
    of that hook: the outcome and the state are those of the composite over
    the concerns that do override it. *)
Theorem composite_skips_default_hooks :
  forall (World Args Value : Type) (none : Value)
         (cs : list (Concern.Concern World Args Value))
         (method_name : string) (args : Args) (w : World),
    let overriding :=
      filter (fun c => is_Some (Concern.overrides World Args Value c
                                  method_name)) cs in
    (Concern.for_each_concern_do World Args Value none method_name
       (Concern.mk_composite World Args Value cs) args w).1
    = (Concern.for_each_concern_do World Args Value none method_name
         (Concern.mk_composite World Args Value overriding) args w).1.
Proof.
  intros World Args Value none cs method_name args w overriding.
  subst overriding. unfold Concern.for_each_concern_do. simpl.
  revert w. induction cs as [|c cs IH]; intros w; [done|].
  rewrite filter_cons.
  destruct (decide (is_Some (Concern.overrides World Args Value c
                               method_name))) as [Hsome|Hnone].
  - simpl.
    destruct (Concern.call World Args Value none c method_name args w)
      as [[v|e] w']; [|done].
    specialize (IH w').
    destruct (Concern.for_each World Args Value none cs method_name args w')
      as [[r1 w1] made1].
    destruct (Concern.for_each World Args Value none (filter _ cs)
                method_name args w') as [[r2 w2] made2].
    simpl in IH |- *. exact IH.
  - simpl. unfold Concern.call at 1.
    destruct (Concern.overrides World Args Value c method_name) eqn:E.
    + exfalso. apply Hnone. by eexists.
    + specialize (IH w).
      destruct (Concern.for_each World Args Value none cs method_name args w)
        as [[r1 w1] made1].
      simpl in IH |- *. exact IH.
Qed.

(** ** The languages of the command line *)

Lemma split_at_nonempty (sep : ascii) (s : string) :
  Byexample.split_at sep s <> [].
Proof.
  destruct s as [|c s]; simpl; [done|].
  destruct (bool_decide (c = sep)); [done|].
  by destruct (Byexample.split_at sep s).
Qed.

Lemma concat_cons_piece (sep : string) (c : ascii) (piece : string)
    (pieces : list string) :
  String.concat sep (String c piece :: pieces)
  = String c (String.concat sep (piece :: pieces)).
Proof. destruct pieces; reflexivity. Qed.

Lemma split_at_app (sep : ascii) (a b : string) :
  Byexample.split_at sep (a +:+ String sep b)
  = Byexample.split_at sep a ++ Byexample.split_at sep b.
Proof.
  induction a as [|c a IH].
  - rewrite append_nil_l. simpl. rewrite bool_decide_eq_true_2 by done.
    done.
  - rewrite append_cons. simpl. rewrite IH.
    destruct (bool_decide (c = sep)); [done|].
    pose proof (split_at_nonempty sep a) as Hne.
    destruct (Byexample.split_at sep a) as [|piece pieces]; done.
Qed.

(** X12: the pieces [CSV] takes from the value of one [-l] option, joined
    by commas again, are the value; there is at least one piece, and no
    piece has a comma in it. *)
Theorem split_at_comma_round_trip :
  forall values : string,
    String.concat "," (Byexample.split_at "," values) = values
    /\ Byexample.split_at "," values <> []
    /\ Forall (fun piece => ~ Str.contains "," piece)
         (Byexample.split_at "," values).
Proof.
  intros values. split_and!.
  - induction values as [|c values IH]; [done|].
    simpl. destruct (bool_decide (c = ","%char)) eqn:E.
    + apply bool_decide_eq_true in E as ->.
      pose proof (split_at_nonempty "," values) as Hne.
      destruct (Byexample.split_at "," values) as [|piece pieces];
        [done|].
      simpl in IH |- *. by rewrite IH.
    + pose proof (split_at_nonempty "," values) as Hne.
      destruct (Byexample.split_at "," values) as [|piece pieces];
        [done|].
      by rewrite concat_cons_piece, IH.
  - apply split_at_nonempty.
  - induction values as [|c values IH]; simpl.
    + constructor; [|constructor].
      intros ([|? ?] & q & H); discriminate H.
    + destruct (bool_decide (c = ","%char)) eqn:E.
      * constructor; [|done].
        intros ([|? ?] & q & H); discriminate H.
      * apply bool_decide_eq_false in E.
        pose proof (split_at_nonempty "," values) as Hne.
        destruct (Byexample.split_at "," values) as [|piece pieces];
          [done|].
        apply Forall_cons in IH as [Hp Hps]. constructor; [|done].
        intros [[q Hq]|Hc]%contains_cons; [|done].
        rewrite append_cons in Hq. by injection Hq as -> _.
Qed.

(** X13: one [-l] option with two values joined by a comma gives the
    languages that two [-l] options with one value each give, in the same
    order. *)
Theorem CSV_comma_is_two_options :
  forall (namespace : Byexample.Namespace) (a b : string),
    Byexample.CSV_call namespace (a +:+ "," +:+ b)
    = Byexample.CSV_call (Byexample.CSV_call namespace a) b.
Proof.
  intros namespace a b. unfold Byexample.CSV_call. simpl. f_equal.
  change ("," +:+ b) with (String ","%char b).
  by rewrite split_at_app, app_assoc.
Qed.

(** an empty value, a doubled comma or a comma at the end gives an empty
    language *)
Example CSV_empty_pieces :
  Byexample.split_at "," "" = [""]
  /\ Byexample.split_at "," "python,,ruby" = ["python"; ""; "ruby"]
  /\ Byexample.split_at "," "python," = ["python"; ""].
Proof. split_and!; reflexivity. Qed.

(** ** What [load_modules] puts in the registry *)

Lemma dict_set_elem {V : Type} (k k' : string) (v x : V) (d : Dict.dict V) :
  (k', x) ∈ Dict.set k v d -> (k', x) = (k, v) \/ (k', x) ∈ d.
Proof.
  induction d as [|[k0 v0] d IH]; simpl.
  - intros ?%list_elem_of_singleton. by left.
  - destruct (decide (k = k0)); rewrite !elem_of_cons.
    + intros [?|?]; [by left | right; by right].
    + intros [?|H]; [right; by left|].
      destruct (IH H) as [?|?]; [by left | right; by right].
Qed.

Lemma dict_set_keys {V : Type} (k : string) (v : V) (d : Dict.dict V) :
  k ∈ Dict.keys (Dict.set k v d)
  /\ forall k', k' ∈ Dict.keys d -> k' ∈ Dict.keys (Dict.set k v d).
Proof.
  unfold Dict.keys. induction d as [|[k0 v0] d [IH1 IH2]]; simpl.
  - split; [by left | by intros k' ?%elem_of_nil].
  - destruct (decide (k = k0)) as [->|Hne]; simpl.
    + split; [by left | done].
    + split; [by right|].
      intros k' [->|H]%elem_of_cons; [by left | right; by apply IH2].
Qed.

Lemma is_a_class (klass : Byexample.Base) (key : string)
    (x : Byexample.PyObj) :
  Byexample.is_a klass key x = true ->
  exists k, x = Byexample.PClass k
            /\ is_Some (Byexample.class_attr k key)
            /\ Byexample.klass_id k <> Byexample.BaseKlass klass.
Proof.
  destruct x as [k| |]; simpl; [|done..].
  intros [[_ Hnb]%andb_true_iff Hattr]%andb_true_iff.
  exists k. split; [done|]. split.
  - by apply bool_decide_eq_true in Hattr.
  - apply negb_true_iff, bool_decide_eq_false in Hnb. exact Hnb.
Qed.

(** the objects the module is searched for, for one kind of plugin *)
Lemma klasses_found_elem (module : Byexample.PyModule)
    (klass : Byexample.Base) (key : string)
    (values : list Byexample.Instance) (x : Byexample.PyObj) :
  let found := Byexample.getmembers module (Byexample.is_a klass key) in
  let klasses_found :=
    match found with
    | [] => []
    | _ :: _ =>
        Byexample.set_minus (map snd found) (map Byexample.PInstance values)
    end in
  x ∈ klasses_found
  <-> exists name, (name, x) ∈ module /\ Byexample.is_a klass key x = true.
Proof.
  intros found klasses_found.
  assert (Hfound : x ∈ map snd found
                   <-> exists name, (name, x) ∈ module
                         /\ Byexample.is_a klass key x = true).
  { subst found. unfold Byexample.getmembers.
    rewrite list_elem_of_fmap. split.
    - intros ([name y] & -> & [Hp Hin]%list_elem_of_filter). simpl in *.
      exists name. split; [done | by apply Is_true_true].
    - intros (name & Hin & Hp). exists (name, x). split; [done|].
      apply list_elem_of_filter. split; [by apply Is_true_true | done]. }
  rewrite <- Hfound. subst klasses_found.
  destruct found as [|m found'] eqn:Ef; [done|].
  unfold Byexample.set_minus.
  rewrite elem_of_remove_dups, list_elem_of_filter. split; [by intros [_ ?]|].
  intros Hin. split; [|done].
  apply bool_decide_pack.
  apply Hfound in Hin as (name & _ & Hp).
  apply is_a_class in Hp as (k & -> & _).
  by intros (i & ? & _)%list_elem_of_fmap.
Qed.

Lemma instantiate_spec (P : Byexample.Klass -> Prop)
    (xs : list Byexample.PyObj) (verbosity : Z) (encoding : option string)
    (created : list Byexample.Instance) :
  Forall (fun x => exists k, x = Byexample.PClass k /\ P k) xs ->
  exists objs,
    Byexample.instantiate xs verbosity encoding created
    = Ok (objs, created ++ objs)
    /\ Forall (fun obj => P (Byexample.class_of obj)) objs
    /\ (forall k, Byexample.PClass k ∈ xs ->
                  exists obj, obj ∈ objs /\ Byexample.class_of obj = k)
    /\ map Byexample.serial objs
       = seq (length created) (length xs).
Proof.
  revert created. induction xs as [|x xs IH]; intros created Hall.
  - exists []. simpl. rewrite app_nil_r. split_and!; try done.
    by intros k ?%elem_of_nil.
  - apply Forall_cons in Hall as [(k & -> & Hk) Hall].
    set (obj := Byexample.mk_instance k (length created) verbosity encoding).
    destruct (IH (created ++ [obj]) Hall) as (objs & Hi & Hp & Hin & Hser).
    exists (obj :: objs). split_and!.
    + simpl. fold obj. rewrite Hi. simpl. by rewrite <- app_assoc.
    + by constructor.
    + intros k' [[= ->]|Hk']%elem_of_cons.
      * exists obj. split; [by left | done].
      * destruct (Hin k' Hk') as (o & Ho & Hc). exists o.
        split; [by right | done].
    + simpl. f_equal. rewrite Hser, length_app. simpl.
      f_equal. lia.
Qed.

Lemma store_spec (klass : Byexample.Base) (key : string)
    (objs : list Byexample.Instance)
    (container : Dict.dict Byexample.Instance)
    (created : list Byexample.Instance) :
  Forall (fun obj => Spec.plugin_of klass key obj /\ obj ∈ created) objs ->
  Spec.filed_in klass key container created ->
  exists container',
    Byexample.store objs key container = Ok container'
    /\ Spec.filed_in klass key container' created
    /\ (forall k, k ∈ Dict.keys container -> k ∈ Dict.keys container')
    /\ (forall obj k, obj ∈ objs ->
          Byexample.class_attr (Byexample.class_of obj) key = Some k ->
          k ∈ Dict.keys container').
Proof.
  revert container. induction objs as [|obj objs IH]; intros container Hall Hf.
  - exists container. split_and!; try done. by intros obj k ?%elem_of_nil.
  - apply Forall_cons in Hall as [[Hp Hc] Hall].
    destruct (is_a_class _ _ _ Hp) as (k0 & [= <-] & [l Hl] & _).
    simpl. unfold Byexample.getattr. rewrite Hl. simpl.
    destruct (IH (Dict.set l obj container) Hall)
      as (container' & Hs & Hf' & Hk & Ho).
    { unfold Spec.filed_in in *. rewrite Forall_forall in *.
      intros [k' x] [[= -> ->]|Hin]%dict_set_elem; [done | by apply Hf]. }
    exists container'. split_and!.
    + done.
    + done.
    + intros k Hin. apply Hk. by apply (proj2 (dict_set_keys l obj container)).
    + intros o k [->|Hin]%elem_of_cons Hattr.
      * apply Hk. rewrite Hl in Hattr. injection Hattr as <-.
        apply (proj1 (dict_set_keys l obj container)).
      * by apply (Ho o).
Qed.

Lemma filed_in_mono (klass : Byexample.Base) (key : string)
    (container : Dict.dict Byexample.Instance)
    (created created' : list Byexample.Instance) :
  (forall obj, obj ∈ created -> obj ∈ created') ->
  Spec.filed_in klass key container created ->
  Spec.filed_in klass key container created'.
Proof.
  intros Hsub Hf. unfold Spec.filed_in in *.
  eapply Forall_impl; [exact Hf|].
  intros entry (H1 & H2 & H3). split_and!; [done | by apply Hsub | done].
Qed.

(** the search of one module for one kind of plugin, on the container of
    that kind *)
Lemma scan_container (module : Byexample.PyModule) (verbosity : Z)
    (encoding : option string) (klass : Byexample.Base) (key : string)
    (container : Dict.dict Byexample.Instance)
    (created : list Byexample.Instance) :
  let found := Byexample.getmembers module (Byexample.is_a klass key) in
  let klasses_found :=
    match found with
    | [] => []
    | _ :: _ =>
        Byexample.set_minus (map snd found)
          (map Byexample.PInstance (Dict.values container))
    end in
  Spec.filed_in klass key container created ->
  exists objs container',
    Byexample.instantiate klasses_found verbosity encoding created
    = Ok (objs, created ++ objs)
    /\ Byexample.store objs key container = Ok container'
    /\ Spec.filed_in klass key container' (created ++ objs)
    /\ Forall (Spec.plugin_of klass key) objs
    /\ (forall k, k ∈ Dict.keys container -> k ∈ Dict.keys container')
    /\ (forall name k l,
          (name, Byexample.PClass k) ∈ module ->
          Byexample.is_a klass key (Byexample.PClass k) = true ->
          Byexample.class_attr k key = Some l ->
          l ∈ Dict.keys container').
Proof.
  intros found klasses_found Hf.
  pose proof (klasses_found_elem module klass key (Dict.values container))
    as Helem. cbn zeta in Helem. fold found in Helem.
  fold klasses_found in Helem.
  destruct (instantiate_spec
              (fun k => Byexample.is_a klass key (Byexample.PClass k) = true)
              klasses_found verbosity encoding created)
    as (objs & Hi & Hp & Hin & _).
  { apply Forall_forall. intros x Hx.
    apply Helem in Hx as (name & _ & Ha).
    destruct (is_a_class _ _ _ Ha) as (k & -> & _). by exists k. }
  destruct (store_spec klass key objs container (created ++ objs))
    as (container' & Hs & Hf' & Hk & Ho).
  { apply Forall_forall. intros obj Hobj. split.
    - rewrite Forall_forall in Hp. by apply Hp.
    - apply elem_of_app. by right. }
  { apply (filed_in_mono _ _ _ created); [|done].
    intros obj ?. apply elem_of_app. by left. }
  exists objs, container'. split_and!; try done.
  intros name k l Hm Ha Hl.
  destruct (Hin k) as (obj & Hobj & Hc).
  { apply Helem. by exists name. }
  apply (Ho obj); [done | by rewrite Hc].
Qed.

Lemma load_kind_step (module : Byexample.PyModule) (verbosity : Z)
    (encoding : option string) (klass : Byexample.Base) (key what : string)
    (registry : Byexample.registry_t) (created : list Byexample.Instance)
    (container : Dict.dict Byexample.Instance) :
  Dict.get what registry = Some container ->
  Spec.filed_in klass key container created ->
  exists objs container',
    Byexample.load_kind module verbosity encoding (klass, key, what)
      (registry, created)
    = Ok ((Dict.set what container' registry : Byexample.registry_t),
          created ++ objs)
    /\ Spec.filed_in klass key container' (created ++ objs)
    /\ Forall (Spec.plugin_of klass key) objs
    /\ (forall k, k ∈ Dict.keys container -> k ∈ Dict.keys container')
    /\ (forall name k l,
          (name, Byexample.PClass k) ∈ module ->
          Byexample.is_a klass key (Byexample.PClass k) = true ->
          Byexample.class_attr k key = Some l ->
          l ∈ Dict.keys container').
Proof.
  intros Hget Hf.
  destruct (scan_container module verbosity encoding klass key container
              created Hf) as (objs & container' & Hi & Hs & Hrest).
  exists objs, container'. split; [|exact Hrest].
  unfold Byexample.load_kind, Dict.item. rewrite Hget.
  cbn [mbind Byexample.result_bind]. rewrite Hi. cbn [mbind Byexample.result_bind].
  rewrite Hs. reflexivity.
Qed.

Lemma created_mono (created objs : list Byexample.Instance)
    (obj : Byexample.Instance) :
  obj ∈ created -> obj ∈ created ++ objs.
Proof. intros H. apply elem_of_app. by left. Qed.

(** one module, searched for the three kinds of plugin *)
Lemma load_kinds_filed (module : Byexample.PyModule) (verbosity : Z)
    (encoding : option string) (registry : Byexample.registry_t)
    (created : list Byexample.Instance) :
  Spec.registry_filed registry created ->
  exists registry' created',
    Byexample.load_kinds module verbosity encoding Byexample.kinds
      (registry, created) = Ok (registry', created')
    /\ Spec.registry_filed registry' created'
    /\ (forall what k, k ∈ Spec.keys_of what registry ->
                       k ∈ Spec.keys_of what registry')
    /\ (forall klass key what name k l,
          (klass, key, what) ∈ Byexample.kinds ->
          (name, Byexample.PClass k) ∈ module ->
          Byexample.is_a klass key (Byexample.PClass k) = true ->
          Byexample.class_attr k key = Some l ->
          l ∈ Spec.keys_of what registry').
Proof.
  intros (ins & fs & pars & -> & Hi & Hf & Hp & Hc).
  destruct (load_kind_step module verbosity encoding Byexample.Interpreter
              "language" "interpreters"
              [("interpreters", ins); ("finders", fs); ("parsers", pars)]
              created ins eq_refl Hi)
    as (objs1 & ins' & H1 & Hi' & Ho1 & Hk1 & Hn1).
  set (created1 := created ++ objs1) in *.
  destruct (load_kind_step module verbosity encoding Byexample.ExampleParser
              "language" "parsers"
              (Dict.set "interpreters" ins'
                 [("interpreters", ins); ("finders", fs); ("parsers", pars)])
              created1 pars eq_refl
              (filed_in_mono _ _ _ _ _ (created_mono created objs1) Hp))
    as (objs2 & pars' & H2 & Hp' & Ho2 & Hk2 & Hn2).
  set (created2 := created1 ++ objs2) in *.
  destruct (load_kind_step module verbosity encoding Byexample.MatchFinder
              "target" "finders"
              (Dict.set "parsers" pars'
                 (Dict.set "interpreters" ins'
                    [("interpreters", ins); ("finders", fs);
                     ("parsers", pars)]))
              created2 fs eq_refl
              (filed_in_mono _ _ _ _ _
                 (fun obj H => created_mono created1 objs2 obj
                                 (created_mono created objs1 obj H)) Hf))
    as (objs3 & fs' & H3 & Hf' & Ho3 & Hk3 & Hn3).
  exists [("interpreters", ins'); ("finders", fs'); ("parsers", pars')],
         (created2 ++ objs3).
  split_and!.
  - unfold Byexample.kinds.
    cbn [Byexample.load_kinds mbind Byexample.result_bind].
    rewrite H1. cbn [mbind Byexample.result_bind].
    rewrite H2. cbn [mbind Byexample.result_bind].
    rewrite H3. reflexivity.
  - exists ins', fs', pars'. split_and!.
    + done.
    + apply (filed_in_mono _ _ _ created1); [|done].
      intros obj H. subst created2.
      by apply created_mono, created_mono.
    + done.
    + apply (filed_in_mono _ _ _ created2); [|done].
      intros obj H. by apply created_mono.
    + subst created2 created1. rewrite !Forall_app. split_and!.
      * done.
      * eapply Forall_impl; [exact Ho1|]. intros obj ?. by left.
      * eapply Forall_impl; [exact Ho2|]. intros obj ?. right. by left.
      * eapply Forall_impl; [exact Ho3|]. intros obj ?. right. by right.
  - intros what k. unfold Spec.keys_of. simpl.
    repeat (case_decide; [by auto|]). done.
  - intros klass key what name k l Hkind Hm Ha Hl.
    unfold Byexample.kinds in Hkind.
    rewrite !elem_of_cons, elem_of_nil in Hkind.
    destruct Hkind as [[= -> -> ->]|[[= -> -> ->]|[[= -> -> ->]|[]]]];
      unfold Spec.keys_of; simpl.
    + by apply (Hn1 name k l).
    + by apply (Hn2 name k l).
    + by apply (Hn3 name k l).
Qed.

(** all the units found, from a registry and objects that fit together *)
Lemma load_units_filed (units : list Byexample.unit_found) (verbosity : Z)
    (encoding : option string) (registry : Byexample.registry_t)
    (created : list Byexample.Instance) :
  Spec.registry_filed registry created ->
  exists registry' created',
    Byexample.load_units units verbosity encoding (registry, created)
    = Ok (registry', created')
    /\ Spec.registry_filed registry' created'
    /\ (forall what k, k ∈ Spec.keys_of what registry ->
                       k ∈ Spec.keys_of what registry')
    /\ (forall u module klass key what name k l,
          u ∈ units -> Byexample.load_module u = Ok module ->
          (klass, key, what) ∈ Byexample.kinds ->
          (name, Byexample.PClass k) ∈ module ->
          Byexample.is_a klass key (Byexample.PClass k) = true ->
          Byexample.class_attr k key = Some l ->
          l ∈ Spec.keys_of what registry').
Proof.
  revert registry created.
  induction units as [|u units IH]; intros registry created Hf.
  - exists registry, created. split_and!; try done.
    by intros u module klass key what name k l ?%elem_of_nil.
  - cbn [Byexample.load_units].
    destruct (Byexample.load_module u) as [module|e] eqn:Hload.
    + destruct (load_kinds_filed module verbosity encoding registry created
                  Hf) as (registry1 & created1 & Hk & Hf1 & Hmono1 & Hfound1).
      rewrite Hk. cbn [mbind Byexample.result_bind].
      destruct (IH registry1 created1 Hf1)
        as (registry' & created' & Hu & Hf' & Hmono & Hfound).
      exists registry', created'. split_and!; try done.
      * intros what k Hin. by apply Hmono, Hmono1.
      * intros u' module' klass key what name k l
          [->|Hin]%elem_of_cons Hl Hkind Hm Ha Hattr.
        -- rewrite Hload in Hl. injection Hl as <-.
           apply Hmono. by apply (Hfound1 klass key what name k l).
        -- by apply (Hfound u' module' klass key what name k l).
    + destruct (IH registry created Hf)
        as (registry' & created' & Hu & Hf' & Hmono & Hfound).
      exists registry', created'. split_and!; try done.
      intros u' module' klass key what name k l
        [->|Hin]%elem_of_cons Hl Hkind Hm Ha Hattr.
      * rewrite Hload in Hl. done.
      * by apply (Hfound u' module' klass key what name k l).
Qed.

Lemma empty_registry_filed : Spec.registry_filed Byexample.empty_registry [].
Proof. exists [], [], []. split_and!; [done | constructor..]. Qed.

Lemma registry_filed_well_formed (registry : Byexample.registry_t)
    (created : list Byexample.Instance) :
  Spec.registry_filed registry created -> Spec.well_formed registry.
Proof.
  intros (ins & fs & pars & -> & Hi & Hf & Hp & _).
  assert (Hall : forall klass key container,
             Spec.filed_in klass key container created ->
             Spec.all_have key container).
  { intros klass key container H. unfold Spec.all_have, Dict.values.
    apply Forall_fmap. eapply Forall_impl; [exact H|].
    intros entry (Ha & _). simpl. by rewrite Ha. }
  exists ins, fs, pars. split_and!; [done | by eapply Hall..].
Qed.

(** X14: [load_modules] returns a registry for every result of the search:
    none of its own lookups fails, whatever the modules hold, and a unit
    that does not load does not stop it. *)
Theorem load_modules_returns_registry :
  forall (units : list Byexample.unit_found) (verbosity : Z)
         (encoding : option string),
    exists registry created,
      Byexample.load_modules units verbosity encoding
      = Ok (registry, created)
      /\ Dict.keys registry = ["interpreters"; "finders"; "parsers"].
Proof.
  intros units verbosity encoding.
  destruct (load_units_filed units verbosity encoding
              Byexample.empty_registry [] empty_registry_filed)
    as (registry & created & Hu & (ins & fs & pars & -> & _) & _).
  by eexists _, _.
Qed.

(** X15: in the registry [load_modules] returns, every entry is filed under
    the value its own object has for the identity attribute of the kind
    ([language] for interpreters and parsers, [target] for finders); the
    object is one this call created, and its class is a subclass of the
    base class of the kind with that attribute, never the base class
    itself.  Nothing else was created. *)
Theorem load_modules_files_by_identity :
  forall (units : list Byexample.unit_found) (verbosity : Z)
         (encoding : option string) (registry : Byexample.registry_t)
         (created : list Byexample.Instance),
    Byexample.load_modules units verbosity encoding
    = Ok (registry, created) ->
    Spec.registry_filed registry created.
Proof.
  intros units verbosity encoding registry created H.
  destruct (load_units_filed units verbosity encoding
              Byexample.empty_registry [] empty_registry_filed)
    as (registry' & created' & Hu & Hf & _).
  unfold Byexample.load_modules in H. rewrite Hu in H.
  by injection H as <- <-.
Qed.

Lemma load_modules_files_by_identity_witness :
  Spec.registry_filed
    [("interpreters",
      [("python", Byexample.mk_instance Spec.OtherPython 1 0 None)]);
     ("finders", []); ("parsers", [])]
    [Byexample.mk_instance Spec.PythonInterpreter 0 0 None;
     Byexample.mk_instance Spec.OtherPython 1 0 None].
Proof.
  apply (load_modules_files_by_identity
           [Spec.python_unit; Spec.other_unit] 0 None).
  reflexivity.
Defined.

(** X16: the units that fail to load have no effect: [load_modules] gives
    the registry and creates the objects it gives and creates for the units
    that load, taken alone. *)
Theorem load_modules_ignores_failed_units :
  forall (units : list Byexample.unit_found) (verbosity : Z)
         (encoding : option string),
    Byexample.load_modules units verbosity encoding
    = Byexample.load_modules (filter (fun u => Spec.loads u = true) units)
        verbosity encoding.
Proof.
  intros units verbosity encoding. unfold Byexample.load_modules.
  generalize (Byexample.empty_registry, @nil Byexample.Instance).
  induction units as [|u units IH]; intros st; [done|].
  rewrite filter_cons.
  destruct (decide (Spec.loads u = true)) as [Hl|Hl];
    unfold Spec.loads in Hl; cbn [Byexample.load_units];
    destruct (Byexample.load_module u) as [module|e] eqn:Hload;
    try done.
  all: try apply IH.
  all: destruct (Byexample.load_kinds module verbosity encoding
                   Byexample.kinds st) as [st'|e']; [|done].
  all: cbn [mbind Byexample.result_bind]; apply IH.
Qed.

(** X17: a language of an interpreter class or a parser class found in a
    module that loads is known to the registry, and [get_allowed_languages]
    accepts a selection of such languages. *)
Theorem found_language_is_allowed :
  forall (units : list Byexample.unit_found) (verbosity : Z)
         (encoding : option string) (registry : Byexample.registry_t)
         (created : list Byexample.Instance) (selected : list string),
    Byexample.load_modules units verbosity encoding
    = Ok (registry, created) ->
    (forall l, l ∈ selected ->
       exists u module name k klass,
         u ∈ units /\ Byexample.load_module u = Ok module
         /\ (name, Byexample.PClass k) ∈ module
         /\ (klass = Byexample.Interpreter \/ klass = Byexample.ExampleParser)
         /\ Byexample.is_a klass "language" (Byexample.PClass k) = true
         /\ Byexample.language k = Some l) ->
    (forall l, l ∈ selected -> Spec.knows registry l)
    /\ Byexample.get_allowed_languages registry selected
       = Ok (list_to_set selected).
Proof.
  intros units verbosity encoding registry created selected H Hsel.
  destruct (load_units_filed units verbosity encoding
              Byexample.empty_registry [] empty_registry_filed)
    as (registry' & created' & Hu & Hf & _ & Hfound).
  unfold Byexample.load_modules in H. rewrite Hu in H.
  injection H as <- <-.
  assert (Hknows : forall l, l ∈ selected -> Spec.knows registry' l).
  { intros l Hl.
    destruct (Hsel l Hl) as (u & module & name & k & klass & Hin & Hload
                             & Hm & Hklass & Ha & Hlang).
    destruct Hf as (ins & fs & pars & -> & Hi & _ & Hp & _).
    assert (Hkey : forall container klass',
               Spec.filed_in klass' "language" container created' ->
               l ∈ Dict.keys container ->
               exists obj, obj ∈ Dict.values container
                 /\ Byexample.language (Byexample.class_of obj) = Some l).
    { intros container klass' Hfi Hk.
      unfold Dict.keys in Hk.
      apply list_elem_of_fmap in Hk as ([l' obj] & -> & Hentry).
      exists obj. split.
      - unfold Dict.values. apply list_elem_of_fmap. by exists (l', obj).
      - unfold Spec.filed_in in Hfi. rewrite Forall_forall in Hfi.
        by destruct (Hfi _ Hentry) as (Hattr & _). }
    destruct Hklass as [-> | ->].
    - assert (Hk : l ∈ Spec.keys_of "interpreters"
                         [("interpreters", ins); ("finders", fs);
                          ("parsers", pars)]).
      { apply (Hfound u module Byexample.Interpreter "language"
                 "interpreters" name k l); try done.
        unfold Byexample.kinds. by left. }
      destruct (Hkey ins _ Hi Hk) as (obj & Hobj & Hl').
      exists "interpreters", ins, obj. split_and!; [by left | done..].
    - assert (Hk : l ∈ Spec.keys_of "parsers"
                         [("interpreters", ins); ("finders", fs);
                          ("parsers", pars)]).
      { apply (Hfound u module Byexample.ExampleParser "language"
                 "parsers" name k l); try done.
        unfold Byexample.kinds. right. by left. }
      destruct (Hkey pars _ Hp Hk) as (obj & Hobj & Hl').
      exists "parsers", pars, obj. split_and!; [by right | done..]. }
  split; [exact Hknows|].
  apply get_allowed_languages_spec; [|exact Hknows].
  by apply (registry_filed_well_formed _ created').
Qed.

Lemma found_language_is_allowed_witness :
  (forall l, l ∈ ["python"] ->
     Spec.knows
       [("interpreters",
         [("python", Byexample.mk_instance Spec.PythonInterpreter 0 0 None)]);
        ("finders", []); ("parsers", [])] l)
  /\ Byexample.get_allowed_languages
       [("interpreters",
         [("python", Byexample.mk_instance Spec.PythonInterpreter 0 0 None)]);
        ("finders", []); ("parsers", [])] ["python"]
     = Ok (list_to_set ["python"]).
Proof.
  apply (found_language_is_allowed [Spec.python_unit] 0 None
           [("interpreters",
             [("python",
               Byexample.mk_instance Spec.PythonInterpreter 0 0 None)]);
            ("finders", []); ("parsers", [])]
           [Byexample.mk_instance Spec.PythonInterpreter 0 0 None]
           ["python"]).
  - reflexivity.
  - intros l ->%list_elem_of_singleton.
    exists Spec.python_unit, Spec.python_module, "PythonInterpreter",
           Spec.PythonInterpreter, Byexample.Interpreter.
    split_and!; try reflexivity.
    + by left.
    + right. by left.
    + by left.
Defined.

(** ** What [main] can do *)



Lemma max_list_append (l1 l2 : list nat) :
  max_list (l1 ++ l2) = Nat.max (max_list l1) (max_list l2).
Proof. induction l1 as [|x l1 IH]; simpl; [done | rewrite IH; lia]. Qed.

Lemma run_files_fail_fast (World ExampleSeq : Type)
    (get_examples_from_file :
       gset string -> Byexample.registry_t -> Byexample.Options -> string ->
       option string -> World -> ExampleSeq * World)
    (runner_run :
       ExampleSeq -> Byexample.Options -> string -> World ->
       (bool * bool) * World)
    (args : Byexample.Namespace) (allowed : gset string)
    (registry : Byexample.registry_t) (options : Byexample.Options)
    (encoding : option string) (testfiles : list string) (e0 : nat)
    (w : World) :
  Byexample.FAIL_FAST options = true ->
  let out :=
    Byexample.run_files World ExampleSeq get_examples_from_file runner_run
      args allowed registry options encoding testfiles e0 w in
  forall rs r, Spec.results_of out.2 = rs ++ [r] ->
               Forall (fun x => x = (false, false)) rs.
Proof.
  intros Hff. revert e0 w.
  induction testfiles as [|f fs IH]; intros e0 w; simpl.
  - intros rs r H. by destruct rs.
  - destruct (get_examples_from_file allowed registry options f encoding w)
      as [examples w1].
    destruct (Byexample.dry args).
    + specialize (IH e0 w1). cbn zeta in IH.
      destruct (Byexample.run_files _ _ _ _ _ _ _ _ _ fs e0 w1)
        as [[st w2] did]. simpl in *. exact IH.
    + destruct (runner_run examples options f w1) as [[failed ab] w2].
      rewrite Hff, andb_true_r.
      destruct (failed || ab) eqn:Hbad.
      * simpl. intros rs r H.
        destruct rs as [|x [|y rs]]; [done | discriminate H
                                      | discriminate H].
      * apply orb_false_iff in Hbad as [-> ->].
        match goal with
        | |- context [Byexample.run_files _ _ _ _ _ _ _ _ _ fs ?e w2] =>
            specialize (IH e w2); cbn zeta in IH;
            destruct (Byexample.run_files World ExampleSeq
                        get_examples_from_file runner_run args allowed
                        registry options encoding fs e w2)
              as [[st w3] did]
        end.
        simpl in *. intros rs r H.
        destruct rs as [|x rs]; [done|].
        injection H as <- H. constructor; [done|]. by apply (IH rs r).
Qed.

(** X19: with [--ff], no file is run after one that failed, aborted or
    crashed: every result but the last is a pass, and the exit status is
    the severity of the last result. *)
Theorem main_fail_fast_stops :
  forall (World ExampleSeq : Type)
         (iter_modules : list string -> list Byexample.unit_found)
         (get_examples_from_file :
            gset string -> Byexample.registry_t -> Byexample.Options ->
            string -> option string -> World -> ExampleSeq * World)
         (runner_run :
            ExampleSeq -> Byexample.Options -> string -> World ->
            (bool * bool) * World)
         (version_major : nat) (args : Byexample.Namespace) (w : World)
         (exit_status : nat) (w' : World) (did : list Byexample.step)
         (rs : list (bool * bool)) (r : bool * bool),
    Byexample.fail_fast args = true ->
    Byexample.main World ExampleSeq iter_modules get_examples_from_file
      runner_run version_major args w
    = (Ok exit_status, w', did) ->
    Spec.results_of did = rs ++ [r] ->
    Forall (fun x => x = (false, false)) rs
    /\ exit_status = Spec.severity r.
Proof.
  intros World ExampleSeq iter_modules get_examples_from_file runner_run
    version_major args w exit_status w' did rs r Hff Hmain Hres.
  unfold Byexample.main in Hmain. cbn zeta in Hmain.
  destruct (Byexample.load_modules _ _ _) as [[registry created]|e];
    [|done].
  destruct (Byexample.get_allowed_languages _ _) as [allowed|e]; [|done].
  pose proof (run_files_fail_fast World ExampleSeq get_examples_from_file
                runner_run args allowed registry (Byexample.options_of args)
                (Byexample.get_encoding version_major
                   (Byexample.args_encoding args))
                (Byexample.testfiles_of args) 0 w Hff) as Hall.
  pose proof (run_files_status World ExampleSeq get_examples_from_file
                runner_run args allowed registry (Byexample.options_of args)
                (Byexample.get_encoding version_major
                   (Byexample.args_encoding args))
                (Byexample.testfiles_of args) 0 w) as Hst.
  cbn zeta in Hall, Hst.
  destruct (Byexample.run_files _ _ _ _ _ _ _ _ _ _ _ _) as [[st w2] did2].
  injection Hmain as -> -> ->. simpl in Hall, Hst.
  specialize (Hall rs r Hres). split; [done|].
  rewrite Hst, Hres, map_app, max_list_append. simpl.
  assert (H0 : max_list (map Spec.severity rs) = 0)
    by by apply max_list_severity_0.
  rewrite H0. lia.
Qed.

Lemma main_fail_fast_stops_witness :
  Forall (fun x => x = (false, false)) [(false, false)]
  /\ 2 = Spec.severity (false, true).
Proof.
  apply (main_fail_fast_stops unit unit (fun _ => [Spec.python_unit])
           Spec.find_nothing
           (Spec.run_with (fun f => (false, bool_decide (f = "b.md"))))
           2 (Spec.args_of true ["a.md"; "b.md"; "c.md"] [] ["python"]) tt
           2 tt
           [Byexample.Parsed "a.md"; Byexample.Ran "a.md" (false, false);
            Byexample.Parsed "b.md"; Byexample.Ran "b.md" (false, true)]
           [(false, false)] (false, true)).
  - reflexivity.
  - vm_compute. reflexivity.
  - reflexivity.
Defined.

Lemma results_nil_ran_nil (did : list Byexample.step) :
  Spec.results_of did = [] -> Spec.ran_of did = [].
Proof.
  induction did as [|[f|f r] did IH]; simpl; [done | auto | done].
Qed.

Lemma run_files_ran_parsed (World ExampleSeq : Type)
    (get_examples_from_file :
       gset string -> Byexample.registry_t -> Byexample.Options -> string ->
       option string -> World -> ExampleSeq * World)
    (runner_run :
       ExampleSeq -> Byexample.Options -> string -> World ->
       (bool * bool) * World)
    (args : Byexample.Namespace) (allowed : gset string)
    (registry : Byexample.registry_t) (options : Byexample.Options)
    (encoding : option string) (testfiles : list string) (e0 : nat)
    (w : World) :
  let out :=
    Byexample.run_files World ExampleSeq get_examples_from_file runner_run
      args allowed registry options encoding testfiles e0 w in
  forall f, f ∈ Spec.ran_of out.2 -> f ∈ Spec.parsed_of out.2.
Proof.
  pose proof (run_files_parsed World ExampleSeq get_examples_from_file
                runner_run args allowed registry options encoding testfiles
                e0 w) as H.
  cbn zeta in *. destruct H as (_ & _ & Hran & Hdry).
  intros f. destruct (Byexample.dry args).
  - rewrite (results_nil_ran_nil _ (Hdry eq_refl)). by intros ?%elem_of_nil.
  - by rewrite (Hran eq_refl).
Qed.

(** X20: with [--dry] every file that is not skipped is handed to the
    finder, none is run, and the exit status is 0. *)
Theorem main_dry_run :
  forall (World ExampleSeq : Type)
         (iter_modules : list string -> list Byexample.unit_found)
         (get_examples_from_file :
            gset string -> Byexample.registry_t -> Byexample.Options ->
            string -> option string -> World -> ExampleSeq * World)
         (runner_run :
            ExampleSeq -> Byexample.Options -> string -> World ->
            (bool * bool) * World)
         (version_major : nat) (args : Byexample.Namespace) (w : World)
         (exit_status : nat) (w' : World) (did : list Byexample.step),
    Byexample.dry args = true ->
    Byexample.main World ExampleSeq iter_modules get_examples_from_file
      runner_run version_major args w
    = (Ok exit_status, w', did) ->
    exit_status = 0
    /\ Spec.ran_of did = []
    /\ Spec.parsed_of did
       = filter (fun f => f ∉ Byexample.skip args) (Byexample.files args).
Proof.
  intros World ExampleSeq iter_modules get_examples_from_file runner_run
    version_major args w exit_status w' did Hdry Hmain.
  unfold Byexample.main in Hmain. cbn zeta in Hmain.
  destruct (Byexample.load_modules _ _ _) as [[registry created]|e];
    [|done].
  destruct (Byexample.get_allowed_languages _ _) as [allowed|e]; [|done].
  pose proof (run_files_parsed World ExampleSeq get_examples_from_file
                runner_run args allowed registry (Byexample.options_of args)
                (Byexample.get_encoding version_major
                   (Byexample.args_encoding args))
                (Byexample.testfiles_of args) 0 w) as Hp.
  pose proof (run_files_status World ExampleSeq get_examples_from_file
                runner_run args allowed registry (Byexample.options_of args)
                (Byexample.get_encoding version_major
                   (Byexample.args_encoding args))
                (Byexample.testfiles_of args) 0 w) as Hst.
  cbn zeta in Hp, Hst.
  destruct (Byexample.run_files _ _ _ _ _ _ _ _ _ _ _ _) as [[st w2] did2].
  injection Hmain as -> -> ->. simpl in Hp, Hst.
  destruct Hp as (_ & Hor & _ & Hres). specialize (Hres Hdry).
  split_and!.
  - by rewrite Hst, Hres.
  - by apply results_nil_ran_nil.
  - rewrite <- testfiles_of_filter.
    destruct Hor as [?|(Hd & _)]; [done | congruence].
Qed.

Lemma main_dry_run_witness :
  0 = 0
  /\ Spec.ran_of [Byexample.Parsed "a.md"; Byexample.Parsed "c.md"] = []
  /\ Spec.parsed_of [Byexample.Parsed "a.md"; Byexample.Parsed "c.md"]
     = filter (fun f => f ∉ ["b.md"]) ["a.md"; "b.md"; "c.md"].
Proof.
  apply (main_dry_run unit unit (fun _ => [Spec.python_unit])
           Spec.find_nothing (Spec.run_with (fun _ => (true, true))) 2
           (Byexample.mk_args ["a.md"; "b.md"; "c.md"] true true ["b.md"]
              ["modules"] None true ["python"] (Some "utf-8") false 0 false)
           tt 0 tt [Byexample.Parsed "a.md"; Byexample.Parsed "c.md"]).
  - reflexivity.
  - vm_compute. reflexivity.
Defined.

(** X21: a file of the skip list is never handed to the finder and never
    run, however [main] ends. *)
Theorem main_never_touches_skipped :
  forall (World ExampleSeq : Type)
         (iter_modules : list string -> list Byexample.unit_found)
         (get_examples_from_file :
            gset string -> Byexample.registry_t -> Byexample.Options ->
            string -> option string -> World -> ExampleSeq * World)
         (runner_run :
            ExampleSeq -> Byexample.Options -> string -> World ->
            (bool * bool) * World)
         (version_major : nat) (args : Byexample.Namespace) (w : World)
         (f : string),
    f ∈ Byexample.skip args ->
    let did :=
      (Byexample.main World ExampleSeq iter_modules get_examples_from_file
         runner_run version_major args w).2 in
    (f ∉ Spec.parsed_of did) /\ (f ∉ Spec.ran_of did).
Proof.
  intros World ExampleSeq iter_modules get_examples_from_file runner_run
    version_major args w f Hskip did.
  subst did. unfold Byexample.main. cbn zeta.
  destruct (Byexample.load_modules _ _ _) as [[registry created]|e];
    [|by split; intros ?%elem_of_nil].
  destruct (Byexample.get_allowed_languages _ _) as [allowed|e];
    [|by split; intros ?%elem_of_nil].
  pose proof (run_files_parsed World ExampleSeq get_examples_from_file
                runner_run args allowed registry (Byexample.options_of args)
                (Byexample.get_encoding version_major
                   (Byexample.args_encoding args))
                (Byexample.testfiles_of args) 0 w) as Hp.
  pose proof (run_files_ran_parsed World ExampleSeq get_examples_from_file
                runner_run args allowed registry (Byexample.options_of args)
                (Byexample.get_encoding version_major
                   (Byexample.args_encoding args))
                (Byexample.testfiles_of args) 0 w) as Hr.
  cbn zeta in Hp, Hr.
  destruct (Byexample.run_files _ _ _ _ _ _ _ _ _ _ _ _) as [[st w2] did].
  simpl in *. destruct Hp as ([rest Hpre] & _).
  assert (Hno : f ∉ Spec.parsed_of did).
  { intros Hin.
    assert (Hin' : f ∈ Byexample.testfiles_of args)
      by (rewrite Hpre; apply elem_of_app; by left).
    rewrite testfiles_of_filter in Hin'.
    by apply list_elem_of_filter in Hin' as [Hns _]. }
  split; [done|]. intros Hin. by apply Hno, Hr.
Qed.

Lemma main_never_touches_skipped_witness :
  let did :=
    (Byexample.main unit unit (fun _ => [Spec.python_unit])
       Spec.find_nothing (Spec.run_with (fun _ => (false, false))) 2
       (Spec.args_of false ["a.md"; "b.md"] ["b.md"] ["python"]) tt).2 in
  ("b.md" ∉ Spec.parsed_of did) /\ ("b.md" ∉ Spec.ran_of did).
Proof.
  apply (main_never_touches_skipped unit unit (fun _ => [Spec.python_unit])
           Spec.find_nothing (Spec.run_with (fun _ => (false, false))) 2
           (Spec.args_of false ["a.md"; "b.md"] ["b.md"] ["python"]) tt
           "b.md").
  by left.
Defined.
